(** * Order store: a shallow embedding of [app/orders.py]

    The module keeps one global dictionary [orders : Dict[UUID, Order]] and
    exposes five handlers over it: [list_orders], [create_order],
    [update_order], [cancel_order] and [orders_report].  The handlers are
    embedded as computations in a state-and-exception monad over that
    dictionary; the clock ([datetime.utcnow()]) and the identifier source
    ([uuid4()]) are read from the environment and passed in as arguments. *)

From Stdlib Require Import List ZArith NArith String Bool Lia.
From Stdlib Require Import Permutation Sorted.
Import ListNotations.

Local Open Scope string_scope.
Local Open Scope Z_scope.

(** ** Python dictionaries

    A Python [dict] keeps its entries in insertion order; assigning to a key
    that is already present replaces the value in place, assigning to a new
    key appends an entry.  [list(d.values())] and [d.items()] follow that
    order, and the result of a stable sort of the values depends on it, so
    the dictionary is an association list with the assignment written out. *)

(* Keys are compared with [==]. *)
Class Key (K : Type) := key_eqb : K -> K -> bool.

(* [==] on keys is equality. *)
Class KeyLaws (K : Type) `{Key K} :=
  key_eqb_spec : forall a b : K, reflect (a = b) (key_eqb a b).

#[export] Instance N_Key : Key N := N.eqb.

Module Dict.
Section Defs.
Context {K V : Type} `{Key K}.

Definition t := list (K * V).

Definition empty : t := [].

(* d.get(k) *)
Fixpoint get (k : K) (d : t) : option V :=
  match d with
  | [] => None
  | (k', v) :: d' => if key_eqb k k' then Some v else get k d'
  end.

(* d[k] = v *)
Fixpoint set (k : K) (v : V) (d : t) : t :=
  match d with
  | [] => [(k, v)]
  | (k', v') :: d' =>
      if key_eqb k k' then (k', v) :: d' else (k', v') :: set k v d'
  end.

Definition keys (d : t) : list K := map fst d.
Definition values (d : t) : list V := map snd d.
Definition len (d : t) : nat := List.length d.
End Defs.
Arguments t : clear implicits.
End Dict.

(** ** The data model *)

Inductive OrderStatus := PENDING | FULFILLED | CANCELLED.

Definition OrderStatus_eqb (a b : OrderStatus) : bool :=
  match a, b with
  | PENDING, PENDING | FULFILLED, FULFILLED | CANCELLED, CANCELLED => true
  | _, _ => false
  end.

#[export] Instance OrderStatus_Key : Key OrderStatus := OrderStatus_eqb.

(* A UUID is a 128-bit value. *)
Definition UUID := N.

(* A naive [datetime], as [datetime.utcnow()] returns it: microseconds on
   the UTC time line.  Comparison of datetimes is comparison of these. *)
Definition datetime := Z.

(** A [datetime] as a request can carry it in [created_from] and
    [created_to]: the ISO-8601 text of the query is read with its UTC offset
    when it has one, and the value is then offset-aware; without one it is
    naive, as the values [utcnow()] returns are. *)
Inductive any_datetime :=
| Naive (t : datetime)
| Aware (t : datetime) (utcoffset : Z).

(* a bound without UTC offset *)
Definition naive (bound : option datetime) : option any_datetime :=
  option_map Naive bound.

(* [Field(..., min_length=1)] on a [str] *)
Definition min_length_1 (s : string) : bool := (1 <=? String.length s)%nat.

(* [Field(..., gt=0)] on an [int] *)
Definition gt_0 (q : Z) : bool := 0 <? q.

(** A field of a JSON request body, as pydantic meets it: the key may be
    missing, hold [null], hold a value that cannot be read at the declared
    type, or hold a value of that type. *)
Inductive Raw (A : Type) :=
| Missing
| Null
| Mistyped
| Given (a : A).
Arguments Missing {A}.
Arguments Null {A}.
Arguments Mistyped {A}.
Arguments Given {A} a.

(** The keyword dictionary an [Order] is built from and dumped to
    (the keyword arguments of the [Order] constructor, the result of
    [model_dump()]).  The entries an update can assign may hold [None]. *)
Module Data.
Record t := mk {
  customer_name : option string;
  item : option string;
  quantity : option Z;
  id : UUID;
  status : option OrderStatus;
  notes : option string;
  created_at : datetime;
  updated_at : datetime
}.
End Data.

Module Order.
Record t := mk {
  customer_name : string;
  item : string;
  quantity : Z;
  id : UUID;
  status : OrderStatus;
  notes : option string;
  created_at : datetime;
  updated_at : datetime
}.

(* The field constraints of OrderBase. *)
Definition valid (o : t) : bool :=
  min_length_1 (customer_name o) && min_length_1 (item o) && gt_0 (quantity o).

Definition model_dump (o : t) : Data.t :=
  {| Data.customer_name := Some (customer_name o);
     Data.item := Some (item o);
     Data.quantity := Some (quantity o);
     Data.id := id o;
     Data.status := Some (status o);
     Data.notes := notes o;
     Data.created_at := created_at o;
     Data.updated_at := updated_at o |}.

(* The [Order] constructor applied to the entries of [data]: pydantic
   validates every field; [None] is accepted for [notes] only.  The result
   [None] stands for the raised ValidationError. *)
Definition validate (d : Data.t) : option t :=
  match Data.customer_name d, Data.item d, Data.quantity d, Data.status d with
  | Some c, Some i, Some q, Some s =>
      if min_length_1 c && min_length_1 i && gt_0 q
      then Some {| customer_name := c; item := i; quantity := q;
                   id := Data.id d; status := s; notes := Data.notes d;
                   created_at := Data.created_at d;
                   updated_at := Data.updated_at d |}
      else None
  | _, _, _, _ => None
  end.

(* [existing.model_copy(update={"status": s, "updated_at": now})]:
   a copy with the two fields replaced, not validated. *)
Definition model_copy_status (o : t) (s : OrderStatus) (now : datetime) : t :=
  {| customer_name := customer_name o; item := item o;
     quantity := quantity o; id := id o; status := s; notes := notes o;
     created_at := created_at o; updated_at := now |}.
End Order.

Module OrderCreate.
Record t := mk {
  customer_name : string;
  item : string;
  quantity : Z;
  notes : option string
}.

Definition valid (c : t) : bool :=
  min_length_1 (customer_name c) && min_length_1 (item c) && gt_0 (quantity c).

(* The request body before validation. *)
Record raw := mk_raw {
  raw_customer_name : Raw string;
  raw_item : Raw string;
  raw_quantity : Raw Z;
  raw_notes : Raw string
}.

(* a required [str] with [min_length=1] *)
Definition required_str (r : Raw string) : option string :=
  match r with
  | Given s => if min_length_1 s then Some s else None
  | _ => None
  end.

(* a required [int] with [gt=0] *)
Definition required_int (r : Raw Z) : option Z :=
  match r with
  | Given q => if gt_0 q then Some q else None
  | _ => None
  end.

(* [notes: Optional[str] = None] *)
Definition optional_str (r : Raw string) : option (option string) :=
  match r with
  | Missing | Null => Some None
  | Given s => Some (Some s)
  | Mistyped => None
  end.

(* Validation of the body against the model; [None] is a rejected body. *)
Definition validate (r : raw) : option t :=
  match required_str (raw_customer_name r), required_str (raw_item r),
        required_int (raw_quantity r), optional_str (raw_notes r) with
  | Some c, Some i, Some q, Some n =>
      Some {| customer_name := c; item := i; quantity := q; notes := n |}
  | _, _, _, _ => None
  end.
End OrderCreate.

(** A field of [OrderUpdate]: pydantic records which fields the request set
    ([model_fields_set]); a field that was set holds a value or [None]. *)
Inductive Field (A : Type) :=
| Unset
| Sent (v : option A).
Arguments Unset {A}.
Arguments Sent {A} v.

Module OrderUpdate.
Record t := mk {
  customer_name : Field string;
  item : Field string;
  quantity : Field Z;
  notes : Field string;
  status : Field OrderStatus
}.

(* [data[field] = value] for a field in [model_dump(exclude_unset=True)] *)
Definition assign {A} (f : Field A) (old : option A) : option A :=
  match f with
  | Unset => old
  | Sent v => v
  end.

(* The loop over [updates.model_dump(exclude_unset=True).items()]. *)
Definition apply (u : t) (d : Data.t) : Data.t :=
  {| Data.customer_name := assign (customer_name u) (Data.customer_name d);
     Data.item := assign (item u) (Data.item d);
     Data.quantity := assign (quantity u) (Data.quantity d);
     Data.id := Data.id d;
     Data.status := assign (status u) (Data.status d);
     Data.notes := assign (notes u) (Data.notes d);
     Data.created_at := Data.created_at d;
     Data.updated_at := Data.updated_at d |}.

(* The constraints the model puts on a value that is not [None]. *)
Definition field_ok {A} (p : A -> bool) (f : Field A) : bool :=
  match f with
  | Sent (Some a) => p a
  | _ => true
  end.

Definition valid (u : t) : bool :=
  field_ok min_length_1 (customer_name u) && field_ok min_length_1 (item u)
  && field_ok gt_0 (quantity u).

Record raw := mk_raw {
  raw_customer_name : Raw string;
  raw_item : Raw string;
  raw_quantity : Raw Z;
  raw_notes : Raw string;
  raw_status : Raw OrderStatus
}.

(* [Optional[T] = Field(None, ...)]: a missing key leaves the field unset,
   [null] sets it to [None], a value is checked against the constraint. *)
Definition optional {A} (p : A -> bool) (r : Raw A) : option (Field A) :=
  match r with
  | Missing => Some Unset
  | Null => Some (Sent None)
  | Given a => if p a then Some (Sent (Some a)) else None
  | Mistyped => None
  end.

Definition validate (r : raw) : option t :=
  match optional min_length_1 (raw_customer_name r),
        optional min_length_1 (raw_item r),
        optional gt_0 (raw_quantity r),
        optional (fun _ => true) (raw_notes r),
        optional (fun _ => true) (raw_status r) with
  | Some c, Some i, Some q, Some n, Some s =>
      Some {| customer_name := c; item := i; quantity := q;
              notes := n; status := s |}
  | _, _, _, _, _ => None
  end.
End OrderUpdate.

Module OrderReport.
Record t := mk {
  total : nat;
  statuses : Dict.t OrderStatus nat
}.
End OrderReport.

(** ** Exceptions and the handler monad *)

Inductive Exn :=
| HTTPException (status_code : nat) (detail : string)
| RequestValidationError     (* the request was rejected before the handler ran *)
| ValidationError            (* pydantic's, raised by a model constructor *)
| TypeError.                 (* Python's, raised by an operator *)

(** The status line FastAPI answers with: it has handlers for
    [HTTPException] and for [RequestValidationError]; any other exception
    that leaves a handler is an internal server error. *)
Definition response_status (e : Exn) : nat :=
  match e with
  | HTTPException c _ => c
  | RequestValidationError => 422%nat
  | ValidationError => 500%nat
  | TypeError => 500%nat
  end.

Inductive Outcome (A : Type) :=
| Return (a : A)
| Raise (e : Exn).
Arguments Return {A} a.
Arguments Raise {A} e.

(* The global [orders]. *)
Definition Store := Dict.t UUID Order.t.

(** A handler runs on the store and leaves a store behind, also when it
    raises: an exception does not undo assignments made before it. *)
Definition M (A : Type) := Store -> Outcome A * Store.

Definition ret {A} (a : A) : M A := fun s => (Return a, s).

Definition bind {A B} (m : M A) (k : A -> M B) : M B :=
  fun s =>
    match m s with
    | (Return a, s') => k a s'
    | (Raise e, s') => (Raise e, s')
    end.

Definition raise {A} (e : Exn) : M A := fun s => (Raise e, s).

(* read the global *)
Definition get_orders : M Store := fun s => (Return s, s).

(* [orders[k] = o] *)
Definition set_order (k : UUID) (o : Order.t) : M unit :=
  fun s => (Return tt, Dict.set k o s).

(* a pydantic constructor: the model, or ValidationError *)
Definition construct {A} (r : option A) : M A :=
  match r with
  | Some a => ret a
  | None => raise ValidationError
  end.

(* FastAPI's validation of a request body, before the handler is called *)
Definition parse_body {A} (r : option A) : M A :=
  match r with
  | Some a => ret a
  | None => raise RequestValidationError
  end.

Notation "x <- m ;; k" := (bind m (fun x => k))
  (at level 61, m at next level, right associativity).
Notation "m ;;; k" := (bind m (fun _ => k))
  (at level 61, right associativity).

(** ** The handlers *)

(** [sorted(l, key=key, reverse=True)]: a stable sort into descending key
    order; elements with equal keys keep the order they had in [l]. *)
Section Sorted.
Context {A : Type} (key : A -> Z).

Fixpoint insert_desc (x : A) (l : list A) : list A :=
  match l with
  | [] => [x]
  | y :: l' => if key y <=? key x then x :: y :: l' else y :: insert_desc x l'
  end.

Definition sorted_reverse (l : list A) : list A :=
  fold_right insert_desc [] l.
End Sorted.

Definition status_is (s : OrderStatus) (o : Order.t) : bool :=
  OrderStatus_eqb (Order.status o) s.

(** [a >= b] and [a <= b] for a naive [a]: Python compares two naive
    datetimes, and raises TypeError when [b] is offset-aware. *)
Definition datetime_ge (a : datetime) (b : any_datetime) : M bool :=
  match b with
  | Naive t => ret (t <=? a)
  | Aware _ _ => raise TypeError
  end.

Definition datetime_le (a : datetime) (b : any_datetime) : M bool :=
  match b with
  | Naive t => ret (a <=? t)
  | Aware _ _ => raise TypeError
  end.

(* [order.created_at >= created_from] *)
Definition created_since (created_from : any_datetime) (o : Order.t) : M bool :=
  datetime_ge (Order.created_at o) created_from.

(* [order.created_at <= created_to] *)
Definition created_until (created_to : any_datetime) (o : Order.t) : M bool :=
  datetime_le (Order.created_at o) created_to.

(* [if x: result = [o for o in result if p(x, o)]]; an enum member and a
   datetime are never falsy, so the test is [x is not None]. *)
Definition keep_if {X} (x : option X) (p : X -> Order.t -> bool)
    (result : list Order.t) : list Order.t :=
  match x with
  | Some v => filter (p v) result
  | None => result
  end.

(* [[o for o in result if p(o)]] with a test that can raise: the tests run
   in the order of the list, and the first that raises ends the handler *)
Fixpoint comprehension (p : Order.t -> M bool) (result : list Order.t)
    : M (list Order.t) :=
  match result with
  | [] => ret []
  | o :: rest =>
      keep <- p o ;;
      kept <- comprehension p rest ;;
      ret (if keep then o :: kept else kept)
  end.

Definition keep_if_raising {X} (x : option X) (p : X -> Order.t -> M bool)
    (result : list Order.t) : M (list Order.t) :=
  match x with
  | Some v => comprehension (p v) result
  | None => ret result
  end.

Definition _filter_orders (status : option OrderStatus)
    (created_from created_to : option any_datetime) : M (list Order.t) :=
  orders <- get_orders ;;
  let result := Dict.values orders in
  let result := keep_if status status_is result in
  result <- keep_if_raising created_from created_since result ;;
  result <- keep_if_raising created_to created_until result ;;
  ret (sorted_reverse Order.created_at result).

Definition list_orders (status : option OrderStatus)
    (created_from created_to : option any_datetime) : M (list Order.t) :=
  _filter_orders status created_from created_to.

(* [utcnow] and [uuid4] are the values the two calls return. *)
Definition create_order (order_input : OrderCreate.t)
    (utcnow : datetime) (uuid4 : UUID) : M Order.t :=
  let now := utcnow in
  order <- construct (Order.validate
    {| Data.customer_name := Some (OrderCreate.customer_name order_input);
       Data.item := Some (OrderCreate.item order_input);
       Data.quantity := Some (OrderCreate.quantity order_input);
       Data.id := uuid4;
       Data.status := Some PENDING;
       Data.notes := OrderCreate.notes order_input;
       Data.created_at := now;
       Data.updated_at := now |}) ;;
  set_order (Order.id order) order ;;;
  ret order.

Definition not_found {A} : M A :=
  raise (HTTPException 404 "Order not found").

Definition with_updated_at (now : datetime) (d : Data.t) : Data.t :=
  {| Data.customer_name := Data.customer_name d; Data.item := Data.item d;
     Data.quantity := Data.quantity d; Data.id := Data.id d;
     Data.status := Data.status d; Data.notes := Data.notes d;
     Data.created_at := Data.created_at d; Data.updated_at := now |}.

Definition update_order (order_id : UUID) (updates : OrderUpdate.t)
    (utcnow : datetime) : M Order.t :=
  orders <- get_orders ;;
  match Dict.get order_id orders with
  | None => not_found
  | Some existing =>
      let data := Order.model_dump existing in
      let data := OrderUpdate.apply updates data in
      let data := with_updated_at utcnow data in
      updated_order <- construct (Order.validate data) ;;
      set_order order_id updated_order ;;;
      ret updated_order
  end.

Definition cancel_order (order_id : UUID) (utcnow : datetime) : M Order.t :=
  orders <- get_orders ;;
  match Dict.get order_id orders with
  | None => not_found
  | Some existing =>
      if OrderStatus_eqb (Order.status existing) CANCELLED then ret existing
      else
        let updated_order := Order.model_copy_status existing CANCELLED utcnow in
        set_order order_id updated_order ;;;
        ret updated_order
  end.

(* [Counter(iterable)]: [for elem in iterable: c[elem] = c.get(elem, 0) + 1] *)
Definition count_one (c : Dict.t OrderStatus nat) (elem : OrderStatus)
    : Dict.t OrderStatus nat :=
  Dict.set elem (match Dict.get elem c with Some n => n | None => 0 end + 1)%nat c.

Definition Counter (l : list OrderStatus) : Dict.t OrderStatus nat :=
  fold_left count_one l Dict.empty.

Definition orders_report (status : option OrderStatus)
    (created_from created_to : option any_datetime) : M OrderReport.t :=
  filtered_orders <- _filter_orders status created_from created_to ;;
  let counts := Counter (map Order.status filtered_orders) in
  ret {| OrderReport.total := List.length filtered_orders;
         OrderReport.statuses := counts |}.

(** The routes with a request body: FastAPI validates the body against the
    model and calls the handler only with a valid model. *)
Definition post_orders (body : OrderCreate.raw)
    (utcnow : datetime) (uuid4 : UUID) : M Order.t :=
  order_input <- parse_body (OrderCreate.validate body) ;;
  create_order order_input utcnow uuid4.

Definition put_order (order_id : UUID) (body : OrderUpdate.raw)
    (utcnow : datetime) : M Order.t :=
  updates <- parse_body (OrderUpdate.validate body) ;;
  update_order order_id updates utcnow.

(** ** Notions the properties are stated with *)

(** The filter as the specification words it: the conjunction of the
    predicates that were supplied, bounds inclusive, an absent predicate
    passing everything. *)
Definition satisfies (status : option OrderStatus)
    (created_from created_to : option datetime) (o : Order.t) : bool :=
  match status with Some s => OrderStatus_eqb (Order.status o) s | None => true end
  && match created_from with Some t => t <=? Order.created_at o | None => true end
  && match created_to with Some t => Order.created_at o <=? t | None => true end.

(* the bound carries a UTC offset *)
Definition is_aware (bound : option any_datetime) : bool :=
  match bound with
  | Some (Aware _ _) => true
  | _ => false
  end.

(* most recent first *)
Definition newer_or_same (a b : Order.t) : Prop :=
  Order.created_at b <= Order.created_at a.

(* how many orders of [l] have status [s] *)
Definition count_status (s : OrderStatus) (l : list Order.t) : nat :=
  List.length (filter (status_is s) l).

(* how many elements of [l] are the status [s] *)
Definition occurrences (s : OrderStatus) (l : list OrderStatus) : nat :=
  List.length (filter (fun x => OrderStatus_eqb x s) l).

(* [c.get(s, 0)] *)
Definition get0 (s : OrderStatus) (c : Dict.t OrderStatus nat) : nat :=
  match Dict.get s c with Some n => n | None => 0%nat end.

Definition sum_counts (c : Dict.t OrderStatus nat) : nat :=
  fold_right Nat.add 0%nat (Dict.values c).

(** What every store built by the handlers satisfies: keys are distinct,
    every order is stored under its own [id], and every stored order meets
    the field constraints of the model. *)
Definition entry_ok (e : UUID * Order.t) : Prop :=
  Order.id (snd e) = fst e /\ Order.valid (snd e) = true.

Definition store_ok (orders : Store) : Prop :=
  NoDup (Dict.keys orders) /\ Forall entry_ok orders.

(* an update that sets none of the required fields to [None] *)
Definition not_null {A} (f : Field A) : bool :=
  match f with
  | Sent None => false
  | _ => true
  end.

Definition no_null_required (u : OrderUpdate.t) : bool :=
  not_null (OrderUpdate.customer_name u) && not_null (OrderUpdate.item u)
  && not_null (OrderUpdate.quantity u) && not_null (OrderUpdate.status u).

(* the value a field has after an update *)
Definition replaced {A} (f : Field A) (old : A) : A :=
  match f with
  | Sent (Some a) => a
  | _ => old
  end.

(* an update request that sets [quantity] only *)
Definition only_quantity (q : Z) : OrderUpdate.t :=
  {| OrderUpdate.customer_name := Unset; OrderUpdate.item := Unset;
     OrderUpdate.quantity := Sent (Some q); OrderUpdate.notes := Unset;
     OrderUpdate.status := Unset |}.

(* the record an update leaves: a field the request sent replaces the
   stored one, a field it did not send keeps it; [updated_at] is the clock *)
Definition merged (existing : Order.t) (u : OrderUpdate.t) (now : datetime)
    : Order.t :=
  {| Order.customer_name :=
       replaced (OrderUpdate.customer_name u) (Order.customer_name existing);
     Order.item := replaced (OrderUpdate.item u) (Order.item existing);
     Order.quantity :=
       replaced (OrderUpdate.quantity u) (Order.quantity existing);
     Order.id := Order.id existing;
     Order.status := replaced (OrderUpdate.status u) (Order.status existing);
     Order.notes :=
       match OrderUpdate.notes u with
       | Unset => Order.notes existing
       | Sent v => v
       end;
     Order.created_at := Order.created_at existing;
     Order.updated_at := now |}.

(* the order a creation request yields *)
Definition created (input : OrderCreate.t) (now : datetime) (uuid : UUID)
    : Order.t :=
  {| Order.customer_name := OrderCreate.customer_name input;
     Order.item := OrderCreate.item input;
     Order.quantity := OrderCreate.quantity input;
     Order.id := uuid;
     Order.status := PENDING;
     Order.notes := OrderCreate.notes input;
     Order.created_at := now;
     Order.updated_at := now |}.

(** The error taxonomy of the interface: a validation error is answered
    with status 422 (or 400), a missing order with status 404 and the
    detail "Order not found". *)
Definition surfaces_as_validation_error (e : Exn) : Prop :=
  response_status e = 422%nat \/ response_status e = 400%nat.

Definition surfaces_as_not_found (e : Exn) : Prop :=
  e = HTTPException 404 "Order not found".

(** A creation body violating a field constraint, as the specification
    lists them: an empty [customer_name] or [item], a [quantity] that is
    not positive, a required field that is missing, a value of the wrong
    type ([null] is not a value of a required field's type). *)
Definition bad_required_str (r : Raw string) : bool :=
  match r with
  | Given s => (String.length s =? 0)%nat
  | _ => true
  end.

Definition bad_required_int (r : Raw Z) : bool :=
  match r with
  | Given q => q <=? 0
  | _ => true
  end.

Definition bad_optional {A} (r : Raw A) : bool :=
  match r with
  | Mistyped => true
  | _ => false
  end.

Definition constraint_violated (b : OrderCreate.raw) : bool :=
  bad_required_str (OrderCreate.raw_customer_name b)
  || bad_required_str (OrderCreate.raw_item b)
  || bad_required_int (OrderCreate.raw_quantity b)
  || bad_optional (OrderCreate.raw_notes b).

(** The operations that write the store, and the store each leaves. *)
Inductive Request :=
| Create (order_input : OrderCreate.t) (utcnow : datetime) (uuid4 : UUID)
| Update (order_id : UUID) (updates : OrderUpdate.t) (utcnow : datetime)
| Cancel (order_id : UUID) (utcnow : datetime).

Definition handle (r : Request) (orders : Store) : Store :=
  match r with
  | Create i now u => snd (create_order i now u orders)
  | Update k u now => snd (update_order k u now orders)
  | Cancel k now => snd (cancel_order k now orders)
  end.

(** The stores a run of the service goes through, with the values [uuid4()]
    has returned so far in the run. *)
Inductive run : list UUID -> Store -> Prop :=
| run_start : run [] Dict.empty
| run_create input now uuid drawn orders :
    run drawn orders ->
    run (uuid :: drawn) (handle (Create input now uuid) orders)
| run_update k u now drawn orders :
    run drawn orders -> run drawn (handle (Update k u now) orders)
| run_cancel k now drawn orders :
    run drawn orders -> run drawn (handle (Cancel k now) orders).

(** A small run: order A (quantity 2) is created, then order B (quantity 1,
    later), then A is cancelled. *)
Definition order_A : OrderCreate.t :=
  {| OrderCreate.customer_name := "ann"; OrderCreate.item := "tea";
     OrderCreate.quantity := 2; OrderCreate.notes := Some "no sugar" |}.

Definition order_B : OrderCreate.t :=
  {| OrderCreate.customer_name := "bob"; OrderCreate.item := "pie";
     OrderCreate.quantity := 1; OrderCreate.notes := None |}.

Definition store_A : Store := handle (Create order_A 10 7%N) Dict.empty.
Definition store_AB : Store := handle (Create order_B 20 8%N) store_A.
Definition store_AB_cancelled : Store := handle (Cancel 7%N 30) store_AB.

(* a request body that sets [customer_name] to null and nothing else *)
Definition null_customer_name : OrderUpdate.raw :=
  {| OrderUpdate.raw_customer_name := Null; OrderUpdate.raw_item := Missing;
     OrderUpdate.raw_quantity := Missing; OrderUpdate.raw_notes := Missing;
     OrderUpdate.raw_status := Missing |}.

(* an update that sets [status] only *)
Definition only_status (s : OrderStatus) : OrderUpdate.t :=
  {| OrderUpdate.customer_name := Unset; OrderUpdate.item := Unset;
     OrderUpdate.quantity := Unset; OrderUpdate.notes := Unset;
     OrderUpdate.status := Sent (Some s) |}.

(** ** Notions for the further properties *)

(* the value [utcnow()] returned while the request was served *)
Definition request_time (r : Request) : datetime :=
  match r with
  | Create _ now _ => now
  | Update _ _ now => now
  | Cancel _ now => now
  end.

(** A run in which the clock never goes back: each request reads a time
    that is not before the one the previous request read. *)
Inductive timed_run : datetime -> Store -> Prop :=
| timed_start t : timed_run t Dict.empty
| timed_step r clock orders :
    timed_run clock orders ->
    clock <= request_time r ->
    timed_run (request_time r) (handle r orders).

(** An update body the request validation refuses: a value of the wrong
    type, an empty [customer_name] or [item], a [quantity] that is not
    positive.  A missing key and [null] are both accepted. *)
Definition bad_optional_str (r : Raw string) : bool :=
  match r with
  | Mistyped => true
  | Given s => (String.length s =? 0)%nat
  | _ => false
  end.

Definition bad_optional_int (r : Raw Z) : bool :=
  match r with
  | Mistyped => true
  | Given q => q <=? 0
  | _ => false
  end.

Definition update_body_rejected (b : OrderUpdate.raw) : bool :=
  bad_optional_str (OrderUpdate.raw_customer_name b)
  || bad_optional_str (OrderUpdate.raw_item b)
  || bad_optional_int (OrderUpdate.raw_quantity b)
  || bad_optional (OrderUpdate.raw_notes b)
  || bad_optional (OrderUpdate.raw_status b).

(* the fields of two requests, one after the other: a field the later
   request sent wins *)
Definition later {A} (first second : Field A) : Field A :=
  match second with
  | Unset => first
  | Sent v => Sent v
  end.

Definition then_update (u1 u2 : OrderUpdate.t) : OrderUpdate.t :=
  {| OrderUpdate.customer_name :=
       later (OrderUpdate.customer_name u1) (OrderUpdate.customer_name u2);
     OrderUpdate.item := later (OrderUpdate.item u1) (OrderUpdate.item u2);
     OrderUpdate.quantity :=
       later (OrderUpdate.quantity u1) (OrderUpdate.quantity u2);
     OrderUpdate.notes := later (OrderUpdate.notes u1) (OrderUpdate.notes u2);
     OrderUpdate.status := later (OrderUpdate.status u1) (OrderUpdate.status u2) |}.

(* an update that sets [notes] only *)
Definition only_notes (n : option string) : OrderUpdate.t :=
  {| OrderUpdate.customer_name := Unset; OrderUpdate.item := Unset;
     OrderUpdate.quantity := Unset; OrderUpdate.notes := Sent n;
     OrderUpdate.status := Unset |}.

(** * Properties *)

#[export] Instance N_KeyLaws : KeyLaws N := N.eqb_spec.

Lemma OrderStatus_eqb_spec (a b : OrderStatus) :
  reflect (a = b) (OrderStatus_eqb a b).
Proof. destruct a, b; constructor; congruence. Qed.

#[export] Instance OrderStatus_KeyLaws : KeyLaws OrderStatus :=
  OrderStatus_eqb_spec.

(** ** Dictionaries *)

Section DictFacts.
Context {K V : Type} `{KeyLaws K}.
Implicit Types (k : K) (v : V) (d : Dict.t K V).

Lemma key_eqb_refl k : key_eqb k k = true.
Proof. destruct (key_eqb_spec k k); congruence. Qed.

Lemma key_eqb_neq k k' : k <> k' -> key_eqb k k' = false.
Proof. intros Hne. destruct (key_eqb_spec k k'); congruence. Qed.

Lemma get_set_eq k v d : Dict.get k (Dict.set k v d) = Some v.
Proof.
  induction d as [|[k' v'] d IH]; simpl.
  - now rewrite key_eqb_refl.
  - destruct (key_eqb_spec k k') as [->|Hne]; simpl.
    + now rewrite key_eqb_refl.
    + now rewrite key_eqb_neq.
Qed.

Lemma get_set_ne k k' v d :
  k <> k' -> Dict.get k' (Dict.set k v d) = Dict.get k' d.
Proof.
  intros Hne. induction d as [|[k0 v0] d IH]; simpl.
  - rewrite key_eqb_neq; auto.
  - destruct (key_eqb_spec k k0) as [->|Hk]; simpl.
    + rewrite key_eqb_neq; auto.
    + now rewrite IH.
Qed.

Lemma get_None_keys k d : Dict.get k d = None <-> ~ In k (Dict.keys d).
Proof.
  induction d as [|[k' v'] d IH]; simpl.
  - tauto.
  - destruct (key_eqb_spec k k') as [->|Hne].
    + split; [discriminate | tauto].
    + rewrite IH. split; [intros Hn [Heq|Hin]; congruence | tauto].
Qed.

Lemma get_Some_In k v d : Dict.get k d = Some v -> In (k, v) d.
Proof.
  induction d as [|[k' v'] d IH]; simpl; [discriminate|].
  destruct (key_eqb_spec k k') as [->|Hne].
  - intros [= ->]. now left.
  - intros Hg. right. now apply IH.
Qed.

Lemma In_get_Some k v d :
  NoDup (Dict.keys d) -> In (k, v) d -> Dict.get k d = Some v.
Proof.
  induction d as [|[k' v'] d IH]; simpl; [tauto|].
  intros Hnd [Heq|Hin]; inversion Hnd as [|? ? Hnotin Hnd']; subst.
  - inversion Heq; subst. now rewrite key_eqb_refl.
  - destruct (key_eqb_spec k k') as [->|Hne].
    + exfalso. apply Hnotin. unfold Dict.keys in *.
      change k' with (fst (k', v)). now apply in_map.
    + now apply IH.
Qed.

(* assigning to a new key appends the entry *)
Lemma set_fresh k v d : Dict.get k d = None -> Dict.set k v d = (d ++ [(k, v)])%list.
Proof.
  induction d as [|[k' v'] d IH]; simpl; [reflexivity|].
  destruct (key_eqb_spec k k') as [->|Hne]; [discriminate|].
  intros Hg. now rewrite IH.
Qed.

(* assigning to a present key keeps the keys, in their order *)
Lemma keys_set_present k v d :
  Dict.get k d <> None -> Dict.keys (Dict.set k v d) = Dict.keys d.
Proof.
  induction d as [|[k' v'] d IH]; simpl; [congruence|].
  destruct (key_eqb_spec k k') as [->|Hne]; simpl; [reflexivity|].
  intros Hg. now rewrite IH.
Qed.

Lemma len_set_present k v d :
  Dict.get k d <> None -> Dict.len (Dict.set k v d) = Dict.len d.
Proof.
  intros Hg. unfold Dict.len.
  rewrite <- (length_map fst (Dict.set k v d)), <- (length_map fst d).
  fold (Dict.keys (Dict.set k v d)). fold (Dict.keys d).
  now rewrite keys_set_present.
Qed.

Lemma len_set_fresh k v d :
  Dict.get k d = None -> Dict.len (Dict.set k v d) = S (Dict.len d).
Proof.
  intros Hg. rewrite set_fresh by assumption. unfold Dict.len.
  rewrite length_app. simpl. lia.
Qed.

Lemma len_set_le k v d : (Dict.len d <= Dict.len (Dict.set k v d))%nat.
Proof.
  destruct (Dict.get k d) eqn:Hg.
  - rewrite len_set_present; [lia | congruence].
  - rewrite len_set_fresh; [lia | assumption].
Qed.

Lemma set_same k v d : Dict.get k d = Some v -> Dict.set k v d = d.
Proof.
  induction d as [|[k' v'] d IH]; simpl; [discriminate|].
  destruct (key_eqb_spec k k') as [->|Hne].
  - now intros [= ->].
  - intros Hg. now rewrite IH.
Qed.

Lemma set_set k v v' d : Dict.set k v' (Dict.set k v d) = Dict.set k v' d.
Proof.
  induction d as [|[k0 v0] d IH]; simpl.
  - now rewrite key_eqb_refl.
  - destruct (key_eqb_spec k k0) as [->|Hne]; simpl.
    + now rewrite key_eqb_refl.
    + rewrite key_eqb_neq by assumption. now rewrite IH.
Qed.

Lemma NoDup_keys_set k v d :
  NoDup (Dict.keys d) -> NoDup (Dict.keys (Dict.set k v d)).
Proof.
  intros Hnd. destruct (Dict.get k d) eqn:Hg.
  - rewrite keys_set_present; [assumption | congruence].
  - rewrite set_fresh by assumption. unfold Dict.keys. rewrite map_app. simpl.
    apply NoDup_app; [assumption | repeat constructor; simpl; tauto |].
    intros a Ha [<-|[]]. now apply get_None_keys in Hg.
Qed.

Lemma Forall_set (P : K * V -> Prop) k v d :
  Forall P d -> P (k, v) -> Forall P (Dict.set k v d).
Proof.
  intros Hd Hv. induction Hd as [|[k0 v0] d Hx Hd IH]; simpl.
  - constructor; auto.
  - destruct (key_eqb_spec k k0) as [->|Hne]; constructor; auto.
Qed.

Lemma get_set_present k v d k' :
  Dict.get k' d <> None -> Dict.get k' (Dict.set k v d) <> None.
Proof.
  intros Hg. destruct (key_eqb_spec k k') as [->|Hne].
  - rewrite get_set_eq. discriminate.
  - now rewrite get_set_ne.
Qed.

Lemma In_set k v d e :
  In e (Dict.set k v d) -> e = (k, v) \/ In e d.
Proof.
  induction d as [|[k0 v0] d IH]; simpl.
  - intros [<-|[]]. now left.
  - destruct (key_eqb_spec k k0) as [->|Hne]; simpl.
    + intros [<-|Hin]; auto.
    + intros [<-|Hin]; auto. destruct (IH Hin); auto.
Qed.
End DictFacts.

(** ** Sorting *)

Section SortedFacts.
Context {A : Type} (key : A -> Z).

Let desc (a b : A) : Prop := key b <= key a.

Lemma insert_desc_perm x l : Permutation (insert_desc key x l) (x :: l).
Proof.
  induction l as [|y l IH]; simpl.
  - apply Permutation_refl.
  - destruct (key y <=? key x).
    + apply Permutation_refl.
    + eapply perm_trans; [apply perm_skip, IH | apply perm_swap].
Qed.

Lemma sorted_reverse_perm l : Permutation (sorted_reverse key l) l.
Proof.
  induction l as [|x l IH]; simpl.
  - constructor.
  - eapply perm_trans; [apply insert_desc_perm | now apply perm_skip].
Qed.

Lemma insert_desc_Forall (P : A -> Prop) x l :
  P x -> Forall P l -> Forall P (insert_desc key x l).
Proof.
  intros Hx Hl. induction Hl as [|y l Hy Hl IH]; simpl.
  - now constructor.
  - destruct (key y <=? key x); repeat constructor; auto.
Qed.

Lemma insert_desc_sorted x l :
  StronglySorted desc l -> StronglySorted desc (insert_desc key x l).
Proof.
  induction 1 as [|y l Hs IH Hy]; simpl.
  - repeat constructor.
  - destruct (Z.leb_spec (key y) (key x)) as [Hle|Hlt].
    + constructor; [now constructor|].
      constructor; [exact Hle|].
      eapply Forall_impl; [|exact Hy]. unfold desc. intros b Hb. lia.
    + constructor; [exact IH|].
      apply insert_desc_Forall; [unfold desc; lia | exact Hy].
Qed.

Lemma sorted_reverse_sorted l : StronglySorted desc (sorted_reverse key l).
Proof.
  induction l as [|x l IH]; simpl.
  - constructor.
  - now apply insert_desc_sorted.
Qed.

(* The sort is stable: the elements of one key keep their order. *)
Lemma insert_desc_same_key k x l :
  filter (fun a => key a =? k) (insert_desc key x l)
  = filter (fun a => key a =? k) (x :: l).
Proof.
  induction l as [|y l IH]; simpl in *.
  - reflexivity.
  - destruct (Z.leb_spec (key y) (key x)) as [Hle|Hlt]; simpl.
    + reflexivity.
    + rewrite IH.
      destruct (Z.eqb_spec (key x) k), (Z.eqb_spec (key y) k);
        try reflexivity; lia.
Qed.

Lemma sorted_reverse_stable k l :
  filter (fun a => key a =? k) (sorted_reverse key l)
  = filter (fun a => key a =? k) l.
Proof.
  induction l as [|x l IH]; simpl.
  - reflexivity.
  - rewrite insert_desc_same_key. simpl. now rewrite IH.
Qed.
End SortedFacts.

(** ** Filtering *)

Lemma filter_filter {A} (p q : A -> bool) (l : list A) :
  filter p (filter q l) = filter (fun a => q a && p a) l.
Proof.
  induction l as [|a l IH]; simpl; [reflexivity|].
  destruct (q a); simpl; [destruct (p a)|]; now rewrite IH.
Qed.

Lemma filter_true {A} (l : list A) : filter (fun _ => true) l = l.
Proof. induction l as [|a l IH]; simpl; congruence. Qed.

Lemma filter_none {A} (p : A -> bool) (l : list A) :
  (forall a, In a l -> p a = false) -> filter p l = [].
Proof.
  induction l as [|a l IH]; intros Hnone; simpl; [reflexivity|].
  rewrite (Hnone a) by now left. apply IH. intros b Hb. apply Hnone. now right.
Qed.

Lemma keep_if_as_filter {X} (x : option X) (p : X -> Order.t -> bool) l :
  keep_if x p l
  = filter (fun o => match x with Some v => p v o | None => true end) l.
Proof. destruct x; simpl; [reflexivity | now rewrite filter_true]. Qed.

(* with a naive bound the comparisons return: the comprehension is a filter *)
Lemma comprehension_since t (l : list Order.t) (orders : Store) :
  comprehension (created_since (Naive t)) l orders
  = (Return (filter (fun o => t <=? Order.created_at o) l), orders).
Proof.
  induction l as [|o l IH]; simpl; [reflexivity|].
  unfold bind in *. cbn [created_since datetime_ge ret]. rewrite IH.
  destruct (t <=? Order.created_at o); reflexivity.
Qed.

Lemma comprehension_until t (l : list Order.t) (orders : Store) :
  comprehension (created_until (Naive t)) l orders
  = (Return (filter (fun o => Order.created_at o <=? t) l), orders).
Proof.
  induction l as [|o l IH]; simpl; [reflexivity|].
  unfold bind in *. cbn [created_until datetime_le ret]. rewrite IH.
  destruct (Order.created_at o <=? t); reflexivity.
Qed.

(* with an offset-aware bound the first comparison raises *)
Lemma comprehension_since_aware t off o (l : list Order.t) (orders : Store) :
  comprehension (created_since (Aware t off)) (o :: l) orders
  = (Raise TypeError, orders).
Proof. reflexivity. Qed.

Lemma comprehension_until_aware t off o (l : list Order.t) (orders : Store) :
  comprehension (created_until (Aware t off)) (o :: l) orders
  = (Raise TypeError, orders).
Proof. reflexivity. Qed.

Lemma keep_if_since created_from (l : list Order.t) (orders : Store) :
  keep_if_raising (naive created_from) created_since l orders
  = (Return (filter (fun o => match created_from with
                              | Some t => t <=? Order.created_at o
                              | None => true
                              end) l), orders).
Proof.
  destruct created_from as [t|]; simpl.
  - apply comprehension_since.
  - now rewrite filter_true.
Qed.

Lemma keep_if_until created_to (l : list Order.t) (orders : Store) :
  keep_if_raising (naive created_to) created_until l orders
  = (Return (filter (fun o => match created_to with
                              | Some t => Order.created_at o <=? t
                              | None => true
                              end) l), orders).
Proof.
  destruct created_to as [t|]; simpl.
  - apply comprehension_until.
  - now rewrite filter_true.
Qed.

(* with bounds that carry no offset the handler returns the sorted filter *)
Lemma _filter_orders_eq status created_from created_to (orders : Store) :
  _filter_orders status (naive created_from) (naive created_to) orders
  = (Return (sorted_reverse Order.created_at
               (filter (satisfies status created_from created_to)
                       (Dict.values orders))),
     orders).
Proof.
  unfold _filter_orders, bind, get_orders.
  rewrite keep_if_since, keep_if_until, keep_if_as_filter, !filter_filter.
  unfold ret. do 3 f_equal.
  apply filter_ext. intros o. unfold satisfies, status_is.
  destruct status; rewrite ?andb_true_l, ?andb_assoc; reflexivity.
Qed.

Lemma orders_report_eq status created_from created_to (orders : Store) :
  orders_report status (naive created_from) (naive created_to) orders
  = (let filtered := sorted_reverse Order.created_at
                       (filter (satisfies status created_from created_to)
                               (Dict.values orders)) in
     (Return {| OrderReport.total := List.length filtered;
                OrderReport.statuses := Counter (map Order.status filtered) |},
      orders)).
Proof. unfold orders_report, bind. now rewrite _filter_orders_eq. Qed.

(* an offset-aware lower bound raises as soon as an order reaches it *)
Lemma _filter_orders_aware_from status t off created_to (orders : Store) :
  _filter_orders status (Some (Aware t off)) created_to orders
  = match keep_if status status_is (Dict.values orders) with
    | [] => _filter_orders status None created_to orders
    | _ :: _ => (Raise TypeError, orders)
    end.
Proof.
  unfold _filter_orders, bind, get_orders.
  destruct (keep_if status status_is (Dict.values orders)); reflexivity.
Qed.

(* and so does an offset-aware upper bound *)
Lemma _filter_orders_aware_to status created_from t off (orders : Store) :
  _filter_orders status (naive created_from) (Some (Aware t off)) orders
  = match filter (satisfies status created_from None) (Dict.values orders) with
    | [] => (Return [], orders)
    | _ :: _ => (Raise TypeError, orders)
    end.
Proof.
  unfold _filter_orders, bind, get_orders.
  rewrite keep_if_since, keep_if_as_filter, filter_filter.
  replace (filter _ (Dict.values orders))
    with (filter (satisfies status created_from None) (Dict.values orders)).
  - destruct (filter (satisfies status created_from None) (Dict.values orders));
      reflexivity.
  - apply filter_ext. intros o. unfold satisfies, status_is.
    destruct status; rewrite ?andb_true_l, ?andb_true_r; reflexivity.
Qed.

(** C2: a listing with a lower bound that carries a UTC offset, on a store
    that holds orders: the comparison of the first order's naive
    [created_at] with the bound raises TypeError, which nothing handles, so
    the request is answered with status 500 instead of the orders that
    match.  The store is left as it was. *)
Theorem list_orders_offset_bound_is_server_error :
  exists e,
    list_orders None (Some (Aware 0 0)) None store_AB_cancelled
    = (Raise e, store_AB_cancelled)
    /\ e = TypeError
    /\ response_status e = 500%nat.
Proof. exists TypeError. repeat split. Qed.

(** X16: for every status, every pair of bounds that carry no UTC offset
    and every store, [list_orders] returns (without raising, and leaving
    the store as it was) exactly the stored orders that satisfy every
    supplied predicate (status equal, [created_at] within the inclusive
    bounds, an absent predicate passing everything), most recent
    [created_at] first; when nothing matches the result is the empty list. *)
Theorem list_orders_filtered_sorted status created_from created_to
    (orders : Store) :
  exists result,
    list_orders status (naive created_from) (naive created_to) orders
    = (Return result, orders)
    /\ Permutation result
         (filter (satisfies status created_from created_to) (Dict.values orders))
    /\ (forall o, In o result <->
          In o (Dict.values orders)
          /\ satisfies status created_from created_to o = true)
    /\ StronglySorted newer_or_same result
    /\ ((forall o, In o (Dict.values orders) ->
           satisfies status created_from created_to o = false) -> result = []).
Proof.
  eexists. split; [apply _filter_orders_eq|].
  assert (Hperm := sorted_reverse_perm Order.created_at
    (filter (satisfies status created_from created_to) (Dict.values orders))).
  split; [exact Hperm|]. split; [|split].
  - intros o. rewrite <- filter_In. split; intros Hin.
    + eapply Permutation_in; [exact Hperm | exact Hin].
    + eapply Permutation_in; [apply Permutation_sym, Hperm | exact Hin].
  - apply sorted_reverse_sorted.
  - intros Hnone.
    now rewrite (filter_none _ _ Hnone).
Qed.

(** ** Counting *)

Lemma get0_count_one c e s :
  get0 s (count_one c e)
  = (get0 s c + if OrderStatus_eqb e s then 1 else 0)%nat.
Proof.
  unfold count_one, get0.
  destruct (OrderStatus_eqb_spec e s) as [->|Hne].
  - now rewrite get_set_eq.
  - rewrite get_set_ne by assumption. lia.
Qed.

Lemma get_count_one_None c e s :
  Dict.get s (count_one c e) = None <-> Dict.get s c = None /\ e <> s.
Proof.
  unfold count_one.
  destruct (OrderStatus_eqb_spec e s) as [->|Hne].
  - rewrite get_set_eq. split; [discriminate|]. intros [_ Hne]. congruence.
  - rewrite get_set_ne by assumption. tauto.
Qed.

Lemma sum_counts_count_one c e :
  sum_counts (count_one c e) = S (sum_counts c).
Proof.
  unfold count_one, sum_counts, Dict.values.
  induction c as [|[k n] c IH]; simpl.
  - reflexivity.
  - unfold key_eqb, OrderStatus_Key.
    destruct (OrderStatus_eqb e k); simpl.
    + lia.
    + unfold key_eqb, OrderStatus_Key in IH. rewrite IH. lia.
Qed.

Lemma NoDup_keys_count_one c e :
  NoDup (Dict.keys c) -> NoDup (Dict.keys (count_one c e)).
Proof. apply NoDup_keys_set. Qed.

Section CounterFacts.
Variable s : OrderStatus.

Lemma fold_count_get0 l c :
  get0 s (fold_left count_one l c) = (get0 s c + occurrences s l)%nat.
Proof.
  revert c. induction l as [|e l IH]; intros c; simpl.
  - unfold occurrences. simpl. lia.
  - rewrite IH, get0_count_one. unfold occurrences. simpl.
    destruct (OrderStatus_eqb e s); simpl; lia.
Qed.

Lemma fold_count_None l c :
  Dict.get s (fold_left count_one l c) = None
  <-> Dict.get s c = None /\ occurrences s l = 0%nat.
Proof.
  revert c. induction l as [|e l IH]; intros c; simpl.
  - unfold occurrences. simpl. tauto.
  - rewrite IH, get_count_one_None. unfold occurrences. simpl.
    destruct (OrderStatus_eqb_spec e s) as [->|Hne]; simpl.
    + split; [intros [[_ Hne] _]; congruence | intros [_ Hz]; discriminate].
    + tauto.
Qed.

Lemma Counter_get l :
  Dict.get s (Counter l)
  = if (occurrences s l =? 0)%nat then None else Some (occurrences s l).
Proof.
  unfold Counter.
  assert (H0 := fold_count_get0 l Dict.empty).
  assert (HN := fold_count_None l Dict.empty).
  unfold get0 in H0. simpl in H0, HN.
  destruct (Nat.eqb_spec (occurrences s l) 0) as [Hz|Hnz].
  - apply HN. auto.
  - destruct (Dict.get s (fold_left count_one l Dict.empty)) as [n|].
    + now rewrite H0.
    + exfalso. apply Hnz. now apply HN.
Qed.
End CounterFacts.

Lemma Counter_sum l : sum_counts (Counter l) = List.length l.
Proof.
  unfold Counter.
  enough (forall c, sum_counts (fold_left count_one l c)
                    = (sum_counts c + List.length l)%nat) as Hgen
    by (rewrite Hgen; reflexivity).
  induction l as [|e l IH]; intros c; simpl.
  - lia.
  - rewrite IH, sum_counts_count_one. lia.
Qed.

Lemma Counter_NoDup l : NoDup (Dict.keys (Counter l)).
Proof.
  unfold Counter.
  enough (forall c, NoDup (Dict.keys c) ->
                    NoDup (Dict.keys (fold_left count_one l c))) as Hgen
    by (apply Hgen; constructor).
  induction l as [|e l IH]; intros c Hc; simpl.
  - exact Hc.
  - apply IH. now apply NoDup_keys_count_one.
Qed.

Lemma occurrences_map_status s (l : list Order.t) :
  occurrences s (map Order.status l) = count_status s l.
Proof.
  unfold occurrences, count_status, status_is.
  induction l as [|o l IH]; simpl; [reflexivity|].
  destruct (OrderStatus_eqb (Order.status o) s); simpl; congruence.
Qed.

Lemma count_status_perm s (l l' : list Order.t) :
  Permutation l l' -> count_status s l = count_status s l'.
Proof.
  intros Hp. unfold count_status.
  induction Hp; simpl;
    repeat match goal with |- context [status_is s ?o] => destruct (status_is s o) end;
    simpl; congruence.
Qed.

(** C6: a report with a lower bound that carries a UTC offset, on a store
    that holds orders: [orders_report] filters through [_filter_orders],
    whose comparison of a naive [created_at] with the bound raises
    TypeError; the request is answered with status 500 instead of a total
    and the counts.  The store is left as it was. *)
Theorem orders_report_offset_bound_is_server_error :
  exists e,
    orders_report None (Some (Aware 0 0)) None store_AB_cancelled
    = (Raise e, store_AB_cancelled)
    /\ e = TypeError
    /\ response_status e = 500%nat.
Proof. exists TypeError. repeat split. Qed.

(** X17: for every status, every pair of bounds that carry no UTC offset
    and every store, [orders_report] filters as [list_orders] does; [total]
    is the number of filtered orders; [statuses] has an entry for exactly
    the statuses that occur among them, holding their count (a status that
    does not occur has no entry, rather than a zero); and [total] is the
    sum of the counts. *)
Theorem orders_report_counts status created_from created_to (orders : Store) :
  exists filtered report,
    list_orders status (naive created_from) (naive created_to) orders
    = (Return filtered, orders)
    /\ orders_report status (naive created_from) (naive created_to) orders
       = (Return report, orders)
    /\ OrderReport.total report = List.length filtered
    /\ OrderReport.total report
       = List.length (filter (satisfies status created_from created_to)
                             (Dict.values orders))
    /\ (forall s,
          Dict.get s (OrderReport.statuses report)
          = if (count_status s filtered =? 0)%nat then None
            else Some (count_status s filtered))
    /\ NoDup (Dict.keys (OrderReport.statuses report))
    /\ OrderReport.total report = sum_counts (OrderReport.statuses report).
Proof.
  do 2 eexists. split; [apply _filter_orders_eq|].
  split; [apply orders_report_eq|].
  simpl. split; [reflexivity|]. split; [|split; [|split]].
  - apply Permutation_length, sorted_reverse_perm.
  - intros s. now rewrite Counter_get, occurrences_map_status.
  - apply Counter_NoDup.
  - now rewrite Counter_sum, length_map.
Qed.

(** ** The handlers, case by case *)

Lemma validate_created input now uuid :
  Order.validate (Order.model_dump (created input now uuid))
  = if OrderCreate.valid input then Some (created input now uuid) else None.
Proof. reflexivity. Qed.

Lemma create_order_valid input now uuid (orders : Store) :
  OrderCreate.valid input = true ->
  create_order input now uuid orders
  = (Return (created input now uuid),
     Dict.set uuid (created input now uuid) orders).
Proof.
  intros Hv. unfold create_order, bind.
  change (Order.validate _) with
    (Order.validate (Order.model_dump (created input now uuid))).
  rewrite validate_created, Hv. reflexivity.
Qed.

Lemma create_order_invalid input now uuid (orders : Store) :
  OrderCreate.valid input = false ->
  create_order input now uuid orders = (Raise ValidationError, orders).
Proof.
  intros Hv. unfold create_order, bind.
  change (Order.validate _) with
    (Order.validate (Order.model_dump (created input now uuid))).
  rewrite validate_created, Hv. reflexivity.
Qed.

Lemma update_order_missing order_id updates now (orders : Store) :
  Dict.get order_id orders = None ->
  update_order order_id updates now orders
  = (Raise (HTTPException 404 "Order not found"), orders).
Proof. intros Hg. unfold update_order, bind, get_orders. now rewrite Hg. Qed.

Lemma update_order_found order_id updates now (orders : Store) existing :
  Dict.get order_id orders = Some existing ->
  update_order order_id updates now orders
  = match Order.validate (with_updated_at now
            (OrderUpdate.apply updates (Order.model_dump existing))) with
    | Some updated => (Return updated, Dict.set order_id updated orders)
    | None => (Raise ValidationError, orders)
    end.
Proof.
  intros Hg. unfold update_order, bind, get_orders. rewrite Hg.
  destruct (Order.validate _); reflexivity.
Qed.

Lemma replaced_ok {A} (p : A -> bool) (f : Field A) (old : A) :
  OrderUpdate.field_ok p f = true -> p old = true -> p (replaced f old) = true.
Proof. destruct f as [|[a|]]; simpl; auto. Qed.

Lemma assign_replaced {A} (f : Field A) (old : A) :
  not_null f = true -> OrderUpdate.assign f (Some old) = Some (replaced f old).
Proof. destruct f as [|[a|]]; simpl; congruence. Qed.

Lemma merged_valid existing u now :
  Order.valid existing = true -> OrderUpdate.valid u = true ->
  Order.valid (merged existing u now) = true.
Proof.
  unfold Order.valid, OrderUpdate.valid. simpl.
  rewrite !andb_true_iff. intros [[Hc Hi] Hq] [[Uc Ui] Uq].
  repeat split; apply replaced_ok; assumption.
Qed.

(* the merged record passes validation when no required field was nulled *)
Lemma validate_merged existing u now :
  Order.valid existing = true -> OrderUpdate.valid u = true ->
  no_null_required u = true ->
  Order.validate (with_updated_at now
    (OrderUpdate.apply u (Order.model_dump existing)))
  = Some (merged existing u now).
Proof.
  intros He Hu Hn. assert (Hm := merged_valid existing u now He Hu).
  unfold no_null_required in Hn. rewrite !andb_true_iff in Hn.
  destruct Hn as [[[Nc Ni] Nq] Ns].
  unfold Order.validate, with_updated_at, OrderUpdate.apply, Order.model_dump.
  cbn [Data.customer_name Data.item Data.quantity Data.status Data.notes
       Data.id Data.created_at Data.updated_at].
  rewrite (assign_replaced _ _ Nc), (assign_replaced _ _ Ni),
    (assign_replaced _ _ Nq), (assign_replaced _ _ Ns).
  unfold Order.valid in Hm. cbn [merged Order.customer_name Order.item Order.quantity] in Hm.
  rewrite Hm. reflexivity.
Qed.

(* and is rejected when one was *)
Lemma validate_nulled existing u now :
  no_null_required u = false ->
  Order.validate (with_updated_at now
    (OrderUpdate.apply u (Order.model_dump existing)))
  = None.
Proof.
  unfold no_null_required, Order.validate, with_updated_at, OrderUpdate.apply.
  cbn [Data.customer_name Data.item Data.quantity Data.status].
  destruct (OrderUpdate.customer_name u) as [|[?|]];
    destruct (OrderUpdate.item u) as [|[?|]];
    destruct (OrderUpdate.quantity u) as [|[?|]];
    destruct (OrderUpdate.status u) as [|[?|]]; simpl; try discriminate;
    reflexivity.
Qed.

Lemma cancel_order_missing order_id now (orders : Store) :
  Dict.get order_id orders = None ->
  cancel_order order_id now orders
  = (Raise (HTTPException 404 "Order not found"), orders).
Proof. intros Hg. unfold cancel_order, bind, get_orders. now rewrite Hg. Qed.

Lemma cancel_order_cancelled order_id now (orders : Store) existing :
  Dict.get order_id orders = Some existing ->
  Order.status existing = CANCELLED ->
  cancel_order order_id now orders = (Return existing, orders).
Proof.
  intros Hg Hs. unfold cancel_order, bind, get_orders. now rewrite Hg, Hs.
Qed.

Lemma cancel_order_live order_id now (orders : Store) existing :
  Dict.get order_id orders = Some existing ->
  Order.status existing <> CANCELLED ->
  cancel_order order_id now orders
  = (Return (Order.model_copy_status existing CANCELLED now),
     Dict.set order_id (Order.model_copy_status existing CANCELLED now) orders).
Proof.
  intros Hg Hs. unfold cancel_order, bind, get_orders. rewrite Hg.
  destruct (OrderStatus_eqb_spec (Order.status existing) CANCELLED);
    [contradiction | reflexivity].
Qed.

(** ** The store invariant *)

Lemma store_ok_empty : store_ok Dict.empty.
Proof. split; constructor. Qed.

Lemma store_ok_set k o (orders : Store) :
  store_ok orders -> Order.id o = k -> Order.valid o = true ->
  store_ok (Dict.set k o orders).
Proof.
  intros [Hnd Hall] Hid Hv. split.
  - now apply NoDup_keys_set.
  - apply Forall_set; [assumption | now split].
Qed.

Lemma store_ok_get k o (orders : Store) :
  store_ok orders -> Dict.get k orders = Some o ->
  Order.id o = k /\ Order.valid o = true.
Proof.
  intros [_ Hall] Hg. apply get_Some_In in Hg.
  rewrite Forall_forall in Hall. exact (Hall _ Hg).
Qed.

Lemma validate_sound d o :
  Order.validate d = Some o -> Order.valid o = true /\ Order.id o = Data.id d.
Proof.
  unfold Order.validate, Order.valid.
  destruct (Data.customer_name d), (Data.item d), (Data.quantity d),
    (Data.status d); try discriminate.
  destruct (_ && _) eqn:Hv; [|discriminate].
  intros [= <-]. simpl. auto.
Qed.

Lemma store_ok_handle r (orders : Store) :
  store_ok orders -> store_ok (handle r orders).
Proof.
  intros Hok. destruct r as [input now uuid | k u now | k now]; simpl.
  - destruct (OrderCreate.valid input) eqn:Hv.
    + rewrite create_order_valid by assumption. simpl.
      apply store_ok_set; auto.
    + now rewrite create_order_invalid.
  - destruct (Dict.get k orders) as [existing|] eqn:Hg.
    + rewrite (update_order_found _ _ _ _ _ Hg).
      destruct (Order.validate _) as [updated|] eqn:Hval; simpl; [|assumption].
      apply validate_sound in Hval. destruct Hval as [Hv Hid].
      destruct (store_ok_get _ _ _ Hok Hg) as [Hk _].
      apply store_ok_set; auto. now rewrite Hid.
    + now rewrite update_order_missing.
  - destruct (Dict.get k orders) as [existing|] eqn:Hg.
    + destruct (store_ok_get _ _ _ Hok Hg) as [Hk Hv].
      destruct (OrderStatus_eqb_spec (Order.status existing) CANCELLED) as [Hc|Hc].
      * now rewrite (cancel_order_cancelled _ _ _ _ Hg Hc).
      * rewrite (cancel_order_live _ _ _ _ Hg Hc). simpl.
        apply store_ok_set; auto.
    + now rewrite cancel_order_missing.
Qed.

Lemma run_store_ok drawn orders : run drawn orders -> store_ok orders.
Proof.
  induction 1; [apply store_ok_empty | | |]; now apply store_ok_handle.
Qed.

(* an update or a cancellation leaves the keys as they are *)
Lemma keys_handle_update k u now (orders : Store) :
  Dict.keys (handle (Update k u now) orders) = Dict.keys orders.
Proof.
  simpl. destruct (Dict.get k orders) as [existing|] eqn:Hg.
  - rewrite (update_order_found _ _ _ _ _ Hg).
    destruct (Order.validate _); simpl; [|reflexivity].
    apply keys_set_present. congruence.
  - now rewrite update_order_missing.
Qed.

Lemma keys_handle_cancel k now (orders : Store) :
  Dict.keys (handle (Cancel k now) orders) = Dict.keys orders.
Proof.
  simpl. destruct (Dict.get k orders) as [existing|] eqn:Hg.
  - destruct (OrderStatus_eqb_spec (Order.status existing) CANCELLED) as [Hc|Hc].
    + now rewrite (cancel_order_cancelled _ _ _ _ Hg Hc).
    + rewrite (cancel_order_live _ _ _ _ Hg Hc). simpl.
      apply keys_set_present. congruence.
  - now rewrite cancel_order_missing.
Qed.

(* every key of the store is a value [uuid4()] returned earlier in the run *)
Lemma run_keys_drawn drawn orders :
  run drawn orders -> forall k, In k (Dict.keys orders) -> In k drawn.
Proof.
  induction 1 as [|input now uuid drawn orders Hrun IH
                  |k u now drawn orders Hrun IH|k now drawn orders Hrun IH];
    intros k0 Hin.
  - destruct Hin.
  - simpl in Hin. destruct (OrderCreate.valid input) eqn:Hv.
    + rewrite create_order_valid in Hin by assumption. simpl in Hin.
      unfold Dict.keys in Hin. apply in_map_iff in Hin.
      destruct Hin as [[k1 o1] [Hfst Hin]]. simpl in Hfst. subst k1.
      apply In_set in Hin. destruct Hin as [Heq|Hin].
      * inversion Heq. now left.
      * right. apply IH. unfold Dict.keys.
        change k0 with (fst (k0, o1)). now apply in_map.
    + rewrite create_order_invalid in Hin by assumption. right. now apply IH.
  - rewrite keys_handle_update in Hin. now apply IH.
  - rewrite keys_handle_cancel in Hin. now apply IH.
Qed.

Lemma run_fresh drawn orders uuid :
  run drawn orders -> ~ In uuid drawn -> Dict.get uuid orders = None.
Proof.
  intros Hrun Hnew. apply get_None_keys. intros Hin.
  apply Hnew. eapply run_keys_drawn; eassumption.
Qed.

Lemma run_small : run [8%N; 7%N] store_AB_cancelled.
Proof. repeat constructor. Qed.

(** ** Creation *)

(** C1: in every store a run of the service reaches, for every valid
    creation input, and [uuid4()] returning a value it has not returned
    before in the run, [create_order] returns an order with status PENDING,
    [created_at] equal to [updated_at], and an [id] distinct from the [id]
    of every order stored before; the store it leaves is the old one with
    exactly that order added under its [id]. *)
Theorem create_order_fresh input now uuid drawn (orders : Store) :
  run drawn orders ->
  ~ In uuid drawn ->
  OrderCreate.valid input = true ->
  exists order,
    create_order input now uuid orders
    = (Return order, (orders ++ [(Order.id order, order)])%list)
    /\ Order.status order = PENDING
    /\ Order.created_at order = Order.updated_at order
    /\ Order.created_at order = now
    /\ (forall k o, In (k, o) orders -> Order.id o <> Order.id order)
    /\ Dict.get (Order.id order) (snd (create_order input now uuid orders))
       = Some order
    /\ Order.customer_name order = OrderCreate.customer_name input
    /\ Order.item order = OrderCreate.item input
    /\ Order.quantity order = OrderCreate.quantity input
    /\ Order.notes order = OrderCreate.notes input.
Proof.
  intros Hrun Hnew Hv. exists (created input now uuid).
  assert (Hfresh := run_fresh _ _ _ Hrun Hnew).
  rewrite create_order_valid by assumption. cbn [snd created Order.id].
  split; [now rewrite set_fresh|].
  repeat split; try reflexivity.
  - intros k o Hin Hid.
    destruct (run_store_ok _ _ Hrun) as [_ Hall].
    rewrite Forall_forall in Hall. destruct (Hall _ Hin) as [Hk _].
    simpl in Hk, Hid. subst.
    apply get_None_keys in Hfresh. apply Hfresh.
    unfold Dict.keys. change (Order.id o) with (fst (Order.id o, o)).
    now apply in_map.
  - apply get_set_eq.
Qed.

Lemma create_order_fresh_witness :
  exists order,
    create_order order_B 40 9%N store_AB_cancelled
    = (Return order, (store_AB_cancelled ++ [(Order.id order, order)])%list)
    /\ Order.status order = PENDING
    /\ Order.created_at order = Order.updated_at order
    /\ Order.created_at order = 40
    /\ (forall k o, In (k, o) store_AB_cancelled -> Order.id o <> Order.id order)
    /\ Dict.get (Order.id order)
         (snd (create_order order_B 40 9%N store_AB_cancelled)) = Some order
    /\ Order.customer_name order = OrderCreate.customer_name order_B
    /\ Order.item order = OrderCreate.item order_B
    /\ Order.quantity order = OrderCreate.quantity order_B
    /\ Order.notes order = OrderCreate.notes order_B.
Proof.
  apply (create_order_fresh order_B 40 9%N [8%N; 7%N] store_AB_cancelled run_small).
  - simpl. intros [H|[H|[]]]; discriminate.
  - reflexivity.
Defined.

Lemma constraint_violated_validate body :
  constraint_violated body = true <-> OrderCreate.validate body = None.
Proof.
  unfold constraint_violated, OrderCreate.validate,
    OrderCreate.required_str, OrderCreate.required_int, min_length_1, gt_0.
  destruct (OrderCreate.raw_customer_name body) as [| | |c];
    destruct (OrderCreate.raw_item body) as [| | |i];
    destruct (OrderCreate.raw_quantity body) as [| | |q];
    destruct (OrderCreate.raw_notes body) as [| | |n];
    cbn [bad_required_str bad_required_int bad_optional OrderCreate.optional_str orb];
    rewrite ?orb_true_r; try (split; [reflexivity | reflexivity]);
    try (destruct (String.length c) as [|lc]); try (destruct (String.length i) as [|li]);
    cbn [Nat.eqb Nat.leb orb]; rewrite ?orb_true_r;
    try (split; [reflexivity | reflexivity]);
    destruct (Z.leb_spec q 0), (Z.ltb_spec 0 q); try lia;
    cbn [orb]; split; congruence.
Qed.

Lemma validate_valid body input :
  OrderCreate.validate body = Some input -> OrderCreate.valid input = true.
Proof.
  unfold OrderCreate.validate, OrderCreate.required_str,
    OrderCreate.required_int, OrderCreate.valid.
  destruct (OrderCreate.raw_customer_name body) as [| | |c]; try discriminate.
  destruct (min_length_1 c) eqn:Hc; [|discriminate].
  destruct (OrderCreate.raw_item body) as [| | |i]; try discriminate.
  destruct (min_length_1 i) eqn:Hi; [|discriminate].
  destruct (OrderCreate.raw_quantity body) as [| | |q]; try discriminate.
  destruct (gt_0 q) eqn:Hq; [|discriminate].
  destruct (OrderCreate.optional_str _); [|discriminate].
  intros [= <-]. simpl. now rewrite Hc, Hi, Hq.
Qed.

(** C8: a creation body that violates a field constraint (an empty
    [customer_name] or [item], a [quantity] that is not positive, a missing
    required field, a value of the wrong type) is refused with a validation
    error and the store is left as it was; a body that violates none is
    accepted, so there is no other way for creation to fail. *)
Theorem post_orders_validation body now uuid (orders : Store) :
  (constraint_violated body = true ->
     exists e, post_orders body now uuid orders = (Raise e, orders)
               /\ surfaces_as_validation_error e)
  /\ (constraint_violated body = false ->
        exists order,
          post_orders body now uuid orders
          = (Return order, Dict.set uuid order orders)).
Proof.
  unfold post_orders, bind. split; intros Hc.
  - apply constraint_violated_validate in Hc. rewrite Hc. simpl.
    exists RequestValidationError. split; [reflexivity | now left].
  - destruct (OrderCreate.validate body) as [input|] eqn:Hval.
    + simpl. rewrite create_order_valid by (eapply validate_valid; eassumption).
      eauto.
    + apply constraint_violated_validate in Hval. congruence.
Qed.

(** ** Update *)

Lemma update_order_merged order_id updates now existing (orders : Store) :
  store_ok orders ->
  Dict.get order_id orders = Some existing ->
  OrderUpdate.valid updates = true ->
  no_null_required updates = true ->
  update_order order_id updates now orders
  = (Return (merged existing updates now),
     Dict.set order_id (merged existing updates now) orders).
Proof.
  intros Hok Hg Hu Hn.
  destruct (store_ok_get _ _ _ Hok Hg) as [_ Hv].
  now rewrite (update_order_found _ _ _ _ _ Hg), validate_merged.
Qed.

(** C3: for an order stored under [order_id] and an update request (valid
    as a request, and setting no required field to null), [update_order]
    returns and stores the record in which every field the request sent
    holds the sent value and every other field holds the stored one; a
    null sent for [notes] clears it; [updated_at] is the clock, [id] and
    [created_at] are as stored.  In particular a request with [quantity]
    only leaves [customer_name], [item], [notes] and [status] as they were,
    and [updated_at] advances when the clock has. *)
Theorem update_order_partial order_id updates now existing (orders : Store) :
  store_ok orders ->
  Dict.get order_id orders = Some existing ->
  OrderUpdate.valid updates = true ->
  no_null_required updates = true ->
  exists updated,
    update_order order_id updates now orders
    = (Return updated, Dict.set order_id updated orders)
    /\ Dict.get order_id (Dict.set order_id updated orders) = Some updated
    /\ Order.customer_name updated
       = match OrderUpdate.customer_name updates with
         | Sent (Some c) => c
         | _ => Order.customer_name existing
         end
    /\ Order.item updated
       = match OrderUpdate.item updates with
         | Sent (Some i) => i
         | _ => Order.item existing
         end
    /\ Order.quantity updated
       = match OrderUpdate.quantity updates with
         | Sent (Some q) => q
         | _ => Order.quantity existing
         end
    /\ Order.status updated
       = match OrderUpdate.status updates with
         | Sent (Some s) => s
         | _ => Order.status existing
         end
    /\ Order.notes updated
       = match OrderUpdate.notes updates with
         | Sent v => v
         | Unset => Order.notes existing
         end
    /\ Order.updated_at updated = now
    /\ Order.id updated = Order.id existing
    /\ Order.created_at updated = Order.created_at existing
    /\ (forall q, updates = only_quantity q ->
          Order.quantity updated = q
          /\ Order.customer_name updated = Order.customer_name existing
          /\ Order.item updated = Order.item existing
          /\ Order.notes updated = Order.notes existing
          /\ Order.status updated = Order.status existing
          /\ (Order.updated_at existing < now ->
              Order.updated_at existing < Order.updated_at updated)).
Proof.
  intros Hok Hg Hu Hn. exists (merged existing updates now).
  split; [now apply update_order_merged|]. split; [apply get_set_eq|].
  repeat (split; [reflexivity|]).
  intros q ->. simpl. repeat split; auto.
Qed.

Lemma update_order_partial_witness :
  exists updated,
    update_order 8%N (only_quantity 5) 40 store_AB_cancelled
    = (Return updated, Dict.set 8%N updated store_AB_cancelled)
    /\ Order.quantity updated = 5
    /\ Order.customer_name updated = "bob"
    /\ Order.item updated = "pie"
    /\ Order.notes updated = None
    /\ Order.status updated = PENDING
    /\ Order.updated_at updated = 40
    /\ Order.created_at updated = 20.
Proof.
  destruct (update_order_partial 8%N (only_quantity 5) 40
              (created order_B 20 8%N) store_AB_cancelled)
    as (updated & Heq & _ & Hc & Hi & Hq & Hs & Hno & Hup & _ & Hcr & _).
  - exact (run_store_ok _ _ run_small).
  - reflexivity.
  - reflexivity.
  - reflexivity.
  - exists updated. repeat split; assumption.
Defined.

(* an update that fails leaves the store as it was *)
Lemma update_order_failure order_id updates now (orders : Store) e :
  fst (update_order order_id updates now orders) = Raise e ->
  snd (update_order order_id updates now orders) = orders.
Proof.
  destruct (Dict.get order_id orders) as [existing|] eqn:Hg.
  - rewrite (update_order_found _ _ _ _ _ Hg).
    destruct (Order.validate _); [discriminate | reflexivity].
  - now rewrite update_order_missing.
Qed.

(* a request that nulls a required field of a stored order: the model
   constructor raises, inside the handler *)
Lemma update_order_nulled order_id updates now existing (orders : Store) :
  Dict.get order_id orders = Some existing ->
  no_null_required updates = false ->
  update_order order_id updates now orders = (Raise ValidationError, orders).
Proof.
  intros Hg Hn.
  now rewrite (update_order_found _ _ _ _ _ Hg), validate_nulled.
Qed.

(** C4: the request [{"customer_name": null}] on the stored order B passes
    the validation of the request body; the merged record is refused by the
    model constructor and the store is left as it was, but the exception is
    pydantic's own, raised inside the handler, and is answered with status
    500: it does not surface as a validation error (422 or 400). *)
Theorem put_order_null_is_server_error :
  exists e,
    put_order 8%N null_customer_name 40 store_AB_cancelled
    = (Raise e, store_AB_cancelled)
    /\ e = ValidationError
    /\ response_status e = 500%nat
    /\ ~ surfaces_as_validation_error e.
Proof.
  exists ValidationError. repeat split.
  intros [H|H]; discriminate.
Qed.

(** C7: for a stored order whose status is CANCELLED, an update request
    (valid as a request, setting no required field to null) that sends a
    different status succeeds, returns the order with that status and
    stores it. *)
Theorem update_order_revives order_id updates now existing s (orders : Store) :
  store_ok orders ->
  Dict.get order_id orders = Some existing ->
  Order.status existing = CANCELLED ->
  OrderUpdate.status updates = Sent (Some s) ->
  s <> CANCELLED ->
  OrderUpdate.valid updates = true ->
  no_null_required updates = true ->
  exists updated,
    update_order order_id updates now orders
    = (Return updated, Dict.set order_id updated orders)
    /\ Order.status updated = s
    /\ Order.status updated <> CANCELLED
    /\ Dict.get order_id (snd (update_order order_id updates now orders))
       = Some updated.
Proof.
  intros Hok Hg _ Hs Hne Hu Hn. exists (merged existing updates now).
  rewrite (update_order_merged _ _ _ _ _ Hok Hg Hu Hn).
  cbn [snd merged Order.status]. rewrite Hs. cbn [replaced].
  repeat split; [assumption | apply get_set_eq].
Qed.

Lemma update_order_revives_witness :
  exists updated,
    update_order 7%N (only_status FULFILLED) 40 store_AB_cancelled
    = (Return updated, Dict.set 7%N updated store_AB_cancelled)
    /\ Order.status updated = FULFILLED
    /\ Order.status updated <> CANCELLED
    /\ Dict.get 7%N
         (snd (update_order 7%N (only_status FULFILLED) 40 store_AB_cancelled))
       = Some updated.
Proof.
  apply (update_order_revives 7%N (only_status FULFILLED) 40
           (Order.model_copy_status (created order_A 10 7%N) CANCELLED 30)
           FULFILLED store_AB_cancelled).
  - exact (run_store_ok _ _ run_small).
  - reflexivity.
  - reflexivity.
  - reflexivity.
  - discriminate.
  - reflexivity.
  - reflexivity.
Defined.

(** ** Cancellation *)

(** C5: for an order stored under [order_id]: when its status is CANCELLED,
    [cancel_order] returns it as it is and leaves the store as it was; when
    it is not, [cancel_order] returns and stores the order with status
    CANCELLED and [updated_at] the clock, the other fields as stored.  A
    second call, at whatever time, returns what the first returned and
    leaves the store the first left. *)
Theorem cancel_order_idempotent order_id now now' existing (orders : Store) :
  Dict.get order_id orders = Some existing ->
  (Order.status existing = CANCELLED ->
     cancel_order order_id now orders = (Return existing, orders))
  /\ (Order.status existing <> CANCELLED ->
        exists updated,
          cancel_order order_id now orders
          = (Return updated, Dict.set order_id updated orders)
          /\ Dict.get order_id (Dict.set order_id updated orders) = Some updated
          /\ Order.status updated = CANCELLED
          /\ Order.updated_at updated = now
          /\ Order.customer_name updated = Order.customer_name existing
          /\ Order.item updated = Order.item existing
          /\ Order.quantity updated = Order.quantity existing
          /\ Order.notes updated = Order.notes existing
          /\ Order.id updated = Order.id existing
          /\ Order.created_at updated = Order.created_at existing)
  /\ cancel_order order_id now' (snd (cancel_order order_id now orders))
     = cancel_order order_id now orders.
Proof.
  intros Hg. split; [|split].
  - intros Hc. now apply cancel_order_cancelled.
  - intros Hc. exists (Order.model_copy_status existing CANCELLED now).
    rewrite (cancel_order_live _ _ _ _ Hg Hc).
    split; [reflexivity|]. split; [apply get_set_eq|]. repeat split.
  - destruct (OrderStatus_eqb_spec (Order.status existing) CANCELLED) as [Hc|Hc].
    + rewrite (cancel_order_cancelled _ now _ _ Hg Hc). simpl.
      now apply cancel_order_cancelled.
    + rewrite (cancel_order_live _ now _ _ Hg Hc). simpl.
      apply cancel_order_cancelled; [apply get_set_eq | reflexivity].
Qed.

Lemma cancel_order_idempotent_witness :
  cancel_order 8%N 50 store_AB_cancelled
  = (Return (Order.model_copy_status (created order_B 20 8%N) CANCELLED 50),
     Dict.set 8%N (Order.model_copy_status (created order_B 20 8%N) CANCELLED 50)
       store_AB_cancelled)
  /\ cancel_order 8%N 60 (snd (cancel_order 8%N 50 store_AB_cancelled))
     = cancel_order 8%N 50 store_AB_cancelled
  /\ cancel_order 7%N 50 store_AB_cancelled
     = (Return (Order.model_copy_status (created order_A 10 7%N) CANCELLED 30),
        store_AB_cancelled).
Proof.
  destruct (cancel_order_idempotent 8%N 50 60 (created order_B 20 8%N)
              store_AB_cancelled eq_refl) as (_ & Hlive & Htwice).
  destruct (cancel_order_idempotent 7%N 50 60
              (Order.model_copy_status (created order_A 10 7%N) CANCELLED 30)
              store_AB_cancelled eq_refl) as (Hdone & _ & _).
  split; [reflexivity|]. split; [exact Htwice|]. exact (Hdone eq_refl).
Defined.

(** ** Missing orders *)

(** C9: for an identifier that is not a key of the store, [update_order]
    and [cancel_order] both raise the HTTP exception with status 404 and
    detail "Order not found", and leave the store, and so its size, as it
    was. *)
Theorem missing_order_not_found order_id updates now (orders : Store) :
  Dict.get order_id orders = None ->
  exists e,
    surfaces_as_not_found e
    /\ response_status e = 404%nat
    /\ update_order order_id updates now orders = (Raise e, orders)
    /\ cancel_order order_id now orders = (Raise e, orders)
    /\ Dict.len (snd (update_order order_id updates now orders)) = Dict.len orders
    /\ Dict.len (snd (cancel_order order_id now orders)) = Dict.len orders.
Proof.
  intros Hg. exists (HTTPException 404 "Order not found").
  rewrite update_order_missing, cancel_order_missing by assumption.
  repeat split.
Qed.

Lemma missing_order_not_found_witness :
  exists e,
    surfaces_as_not_found e
    /\ response_status e = 404%nat
    /\ update_order 9%N (only_quantity 5) 40 store_AB_cancelled
       = (Raise e, store_AB_cancelled)
    /\ cancel_order 9%N 40 store_AB_cancelled = (Raise e, store_AB_cancelled)
    /\ Dict.len (snd (update_order 9%N (only_quantity 5) 40 store_AB_cancelled))
       = Dict.len store_AB_cancelled
    /\ Dict.len (snd (cancel_order 9%N 40 store_AB_cancelled))
       = Dict.len store_AB_cancelled.
Proof.
  apply (missing_order_not_found 9%N (only_quantity 5) 40 store_AB_cancelled).
  reflexivity.
Defined.

(** ** What the operations leave alone *)

Lemma handle_get_other r (orders : Store) k :
  match r with
  | Create _ _ uuid => k <> uuid
  | Update order_id _ _ | Cancel order_id _ => k <> order_id
  end ->
  Dict.get k (handle r orders) = Dict.get k orders.
Proof.
  destruct r as [input now uuid | order_id u now | order_id now]; simpl; intros Hne.
  - destruct (OrderCreate.valid input) eqn:Hv.
    + rewrite create_order_valid by assumption. simpl.
      apply get_set_ne. congruence.
    + now rewrite create_order_invalid.
  - destruct (Dict.get order_id orders) as [existing|] eqn:Hg.
    + rewrite (update_order_found _ _ _ _ _ Hg).
      destruct (Order.validate _); simpl; [|reflexivity].
      apply get_set_ne. congruence.
    + now rewrite update_order_missing.
  - destruct (Dict.get order_id orders) as [existing|] eqn:Hg.
    + destruct (OrderStatus_eqb_spec (Order.status existing) CANCELLED) as [Hc|Hc].
      * now rewrite (cancel_order_cancelled _ _ _ _ Hg Hc).
      * rewrite (cancel_order_live _ _ _ _ Hg Hc). simpl.
        apply get_set_ne. congruence.
    + now rewrite cancel_order_missing.
Qed.

(* the store an operation leaves is the old one, or the old one with one
   assignment *)
Lemma handle_cases r (orders : Store) :
  handle r orders = orders
  \/ exists k o, handle r orders = Dict.set k o orders.
Proof.
  destruct r as [input now uuid | order_id u now | order_id now]; simpl.
  - destruct (OrderCreate.valid input) eqn:Hv.
    + rewrite create_order_valid by assumption. right. simpl. eauto.
    + rewrite create_order_invalid by assumption. now left.
  - destruct (Dict.get order_id orders) as [existing|] eqn:Hg.
    + rewrite (update_order_found _ _ _ _ _ Hg).
      destruct (Order.validate _); simpl; [right; eauto | now left].
    + rewrite update_order_missing by assumption. now left.
  - destruct (Dict.get order_id orders) as [existing|] eqn:Hg.
    + destruct (OrderStatus_eqb_spec (Order.status existing) CANCELLED) as [Hc|Hc].
      * rewrite (cancel_order_cancelled _ _ _ _ Hg Hc). now left.
      * rewrite (cancel_order_live _ _ _ _ Hg Hc). right. simpl. eauto.
    + rewrite cancel_order_missing by assumption. now left.
Qed.

(** C10: whatever the operation, in every store a run reaches: the size of
    the store does not decrease and no key is lost; a record under another
    key than the one the operation addresses is left as it was; an update
    and a cancellation leave the keys as they are; and a creation (valid
    input, [uuid4()] returning a value it has not returned before) appends
    exactly one entry and leaves every record that was stored as it was. *)
Theorem operations_frame r drawn (orders : Store) :
  run drawn orders ->
  (Dict.len orders <= Dict.len (handle r orders))%nat
  /\ (forall k, Dict.get k orders <> None -> Dict.get k (handle r orders) <> None)
  /\ match r with
     | Create input now uuid =>
         (forall k, k <> uuid -> Dict.get k (handle r orders) = Dict.get k orders)
         /\ (~ In uuid drawn -> OrderCreate.valid input = true ->
               handle r orders = (orders ++ [(uuid, created input now uuid)])%list
               /\ Dict.len (handle r orders) = S (Dict.len orders)
               /\ forall k o, Dict.get k orders = Some o ->
                              Dict.get k (handle r orders) = Some o)
     | Update order_id _ _ | Cancel order_id _ =>
         (forall k, k <> order_id ->
                    Dict.get k (handle r orders) = Dict.get k orders)
         /\ Dict.keys (handle r orders) = Dict.keys orders
         /\ Dict.len (handle r orders) = Dict.len orders
     end.
Proof.
  intros Hrun. split; [|split].
  - destruct (handle_cases r orders) as [->|(k & o & ->)];
      [lia | apply len_set_le].
  - intros k Hk. destruct (handle_cases r orders) as [->|(k' & o & ->)];
      [assumption | now apply get_set_present].
  - destruct r as [input now uuid | order_id u now | order_id now].
    + split; [intros k Hk; now apply handle_get_other|].
      intros Hnew Hv. assert (Hfresh := run_fresh _ _ _ Hrun Hnew).
      simpl. rewrite create_order_valid by assumption. simpl.
      split; [now apply set_fresh|]. split; [now apply len_set_fresh|].
      intros k o Hg. rewrite get_set_ne; [assumption|].
      intros ->. congruence.
    + split; [intros k Hk; now apply handle_get_other|].
      split; [apply keys_handle_update|].
      unfold Dict.len. rewrite <- !(length_map fst).
      fold (Dict.keys (handle (Update order_id u now) orders)).
      fold (Dict.keys orders). now rewrite keys_handle_update.
    + split; [intros k Hk; now apply handle_get_other|].
      split; [apply keys_handle_cancel|].
      unfold Dict.len. rewrite <- !(length_map fst).
      fold (Dict.keys (handle (Cancel order_id now) orders)).
      fold (Dict.keys orders). now rewrite keys_handle_cancel.
Qed.

Lemma operations_frame_witness :
  (Dict.len store_AB <= Dict.len (handle (Cancel 7%N 30%Z) store_AB))%nat
  /\ (forall k, Dict.get k store_AB <> None ->
                Dict.get k (handle (Cancel 7%N 30) store_AB) <> None)
  /\ (forall k, k <> 7%N ->
                Dict.get k (handle (Cancel 7%N 30) store_AB) = Dict.get k store_AB)
  /\ Dict.keys (handle (Cancel 7%N 30) store_AB) = Dict.keys store_AB
  /\ Dict.len (handle (Cancel 7%N 30) store_AB) = Dict.len store_AB.
Proof.
  apply (operations_frame (Cancel 7%N 30) [8%N; 7%N] store_AB).
  repeat constructor.
Defined.

(** ** The scenario of the specification, evaluated *)

(* orders A and B created in that order: the listing is [B, A] *)
Example scenario_list :
  fst (list_orders None None None store_AB)
  = Return [created order_B 20 8%N; created order_A 10 7%N].
Proof. reflexivity. Qed.

(* after A is cancelled, the CANCELLED orders are [A] *)
Example scenario_list_cancelled :
  fst (list_orders (Some CANCELLED) None None store_AB_cancelled)
  = Return [Order.model_copy_status (created order_A 10 7%N) CANCELLED 30].
Proof. reflexivity. Qed.

(* bounds are inclusive: B, created at 20, is within [20, 20] *)
Example scenario_bounds :
  fst (list_orders None (Some (Naive 20)) (Some (Naive 20)) store_AB_cancelled)
  = Return [created order_B 20 8%N].
Proof. reflexivity. Qed.

(* nothing matches: the empty list, and no exception *)
Example scenario_no_match :
  list_orders (Some FULFILLED) None None store_AB_cancelled
  = (Return [], store_AB_cancelled).
Proof. reflexivity. Qed.

(* two PENDING orders and one CANCELLED: no FULFILLED key in the report *)
Example scenario_report :
  let orders := handle (Create order_B 40 9%N) store_AB_cancelled in
  exists report,
    fst (orders_report None None None orders) = Return report
    /\ OrderReport.total report = 3%nat
    /\ Dict.get PENDING (OrderReport.statuses report) = Some 2%nat
    /\ Dict.get CANCELLED (OrderReport.statuses report) = Some 1%nat
    /\ Dict.get FULFILLED (OrderReport.statuses report) = None.
Proof. eexists. repeat split. Qed.

(* orders created at the same time keep the order of their creation *)
Example scenario_ties :
  let orders := handle (Create order_B 10 8%N) store_A in
  fst (list_orders None None None orders)
  = Return [created order_A 10 7%N; created order_B 10 8%N].
Proof. reflexivity. Qed.

(* a non-positive quantity is refused and nothing is stored *)
Example scenario_quantity_zero :
  post_orders
    {| OrderCreate.raw_customer_name := Given "ann";
       OrderCreate.raw_item := Given "tea";
       OrderCreate.raw_quantity := Given 0;
       OrderCreate.raw_notes := Missing |} 10 7%N Dict.empty
  = (Raise RequestValidationError, Dict.empty).
Proof. reflexivity. Qed.

(** * Further properties of the handlers *)

(** ** Listings *)

(** X1: the sort of [_filter_orders] is stable: for bounds that carry no
    UTC offset, the orders of a listing that have one and the same
    [created_at] stand in the order in which the values of the store hold
    them. *)
Theorem list_orders_stable status created_from created_to (orders : Store) t :
  exists result,
    list_orders status (naive created_from) (naive created_to) orders
    = (Return result, orders)
    /\ filter (fun o => Order.created_at o =? t) result
       = filter (fun o => Order.created_at o =? t)
           (filter (satisfies status created_from created_to)
                   (Dict.values orders)).
Proof.
  eexists. split; [apply _filter_orders_eq|].
  apply (sorted_reverse_stable Order.created_at).
Qed.

Section SortFilter.
Context {A : Type} (key : A -> Z) (p : A -> bool).

Lemma insert_desc_head x l :
  Forall (fun y => key y <= key x) l -> insert_desc key x l = x :: l.
Proof.
  intros Hl. destruct Hl as [|y l Hy Hl]; simpl; [reflexivity|].
  destruct (Z.leb_spec (key y) (key x)); [reflexivity | lia].
Qed.

Lemma Forall_filter_keep (P : A -> Prop) l :
  Forall P l -> Forall P (filter p l).
Proof.
  induction 1 as [|y l Hy Hl IH]; simpl; [constructor|].
  destruct (p y); [constructor|]; assumption.
Qed.

Lemma filter_insert_desc x l :
  StronglySorted (fun a b => key b <= key a) l ->
  filter p (insert_desc key x l)
  = if p x then insert_desc key x (filter p l) else filter p l.
Proof.
  induction 1 as [|y l Hs IH Hy].
  - simpl. destruct (p x); reflexivity.
  - cbn [insert_desc]. destruct (Z.leb_spec (key y) (key x)) as [Hle|Hlt].
    + cbn [filter]. destruct (p x); [|reflexivity].
      symmetry. apply (insert_desc_head x (filter p (y :: l))).
      apply Forall_filter_keep. constructor; [assumption|].
      eapply Forall_impl; [|exact Hy]. simpl. intros b Hb. lia.
    + cbn [filter]. rewrite IH. destruct (p x), (p y); try reflexivity.
      cbn [insert_desc]. destruct (Z.leb_spec (key y) (key x)); [lia | reflexivity].
Qed.

(* filtering a sorted list is sorting the filtered list *)
Lemma filter_sorted_reverse l :
  filter p (sorted_reverse key l) = sorted_reverse key (filter p l).
Proof.
  induction l as [|x l IH]; simpl; [reflexivity|].
  rewrite filter_insert_desc by apply sorted_reverse_sorted.
  rewrite IH. destruct (p x); reflexivity.
Qed.
End SortFilter.

(** X2: for bounds that carry no UTC offset, a filtered listing is the
    unfiltered listing with the orders that do not pass the filter dropped:
    the orders that stay keep their place relative to each other. *)
Theorem list_orders_of_full_listing status created_from created_to
    (orders : Store) :
  exists full result,
    list_orders None None None orders = (Return full, orders)
    /\ list_orders status (naive created_from) (naive created_to) orders
       = (Return result, orders)
    /\ result = filter (satisfies status created_from created_to) full.
Proof.
  do 2 eexists. split; [apply (_filter_orders_eq None None None)|].
  split; [apply _filter_orders_eq|].
  rewrite filter_sorted_reverse. f_equal.
  rewrite filter_filter. apply filter_ext. intros o. reflexivity.
Qed.

Lemma satisfies_inverted status created_from created_to o :
  created_to < created_from ->
  satisfies status (Some created_from) (Some created_to) o = false.
Proof.
  intros Hlt. unfold satisfies.
  destruct (Z.leb_spec created_from (Order.created_at o)),
    (Z.leb_spec (Order.created_at o) created_to);
    rewrite ?andb_false_r; try reflexivity; lia.
Qed.

(** X3: when both bounds carry no UTC offset and the lower one is after
    the upper one, no order can match: the listing is empty and the report
    counts nothing, whatever the store holds. *)
Theorem inverted_bounds_match_nothing status created_from created_to
    (orders : Store) :
  created_to < created_from ->
  list_orders status (Some (Naive created_from)) (Some (Naive created_to)) orders
  = (Return [], orders)
  /\ orders_report status (Some (Naive created_from)) (Some (Naive created_to))
       orders
     = (Return {| OrderReport.total := 0; OrderReport.statuses := [] |}, orders).
Proof.
  intros Hlt.
  assert (Hnone : filter (satisfies status (Some created_from) (Some created_to))
                    (Dict.values orders) = []).
  { apply filter_none. intros o _. now apply satisfies_inverted. }
  split.
  - unfold list_orders.
    rewrite (_filter_orders_eq status (Some created_from) (Some created_to)).
    now rewrite Hnone.
  - rewrite (orders_report_eq status (Some created_from) (Some created_to)).
    cbv zeta. now rewrite Hnone.
Qed.

Lemma inverted_bounds_match_nothing_witness :
  list_orders None (Some (Naive 30)) (Some (Naive 10)) store_AB_cancelled
  = (Return [], store_AB_cancelled)
  /\ orders_report None (Some (Naive 30)) (Some (Naive 10)) store_AB_cancelled
     = (Return {| OrderReport.total := 0; OrderReport.statuses := [] |},
        store_AB_cancelled).
Proof.
  apply (inverted_bounds_match_nothing None 30 10 store_AB_cancelled). lia.
Defined.

Lemma ids_are_keys (orders : Store) :
  Forall entry_ok orders -> map Order.id (Dict.values orders) = Dict.keys orders.
Proof.
  unfold Dict.values, Dict.keys.
  induction 1 as [|[k o] l [Hid _] Hl IH]; simpl in *; [reflexivity|].
  now rewrite Hid, IH.
Qed.

Lemma NoDup_map_filter {A B} (f : A -> B) (p : A -> bool) l :
  NoDup (map f l) -> NoDup (map f (filter p l)).
Proof.
  induction l as [|a l IH]; simpl; intros Hnd; [constructor|].
  inversion Hnd as [|? ? Hnotin Hnd']; subst.
  destruct (p a); simpl; [constructor|]; auto.
  intros Hin. apply Hnotin. apply in_map_iff in Hin.
  destruct Hin as (b & Hb & Hin). apply filter_In in Hin.
  apply in_map_iff. exists b. tauto.
Qed.

(** X4: in a store the handlers built, and for bounds that carry no UTC
    offset, no two orders of a listing have the same [id]. *)
Theorem list_orders_distinct_ids status created_from created_to drawn
    (orders : Store) :
  run drawn orders ->
  exists result,
    list_orders status (naive created_from) (naive created_to) orders
    = (Return result, orders)
    /\ NoDup (map Order.id result).
Proof.
  intros Hrun. destruct (run_store_ok _ _ Hrun) as [Hnd Hall].
  eexists. split; [apply _filter_orders_eq|].
  eapply Permutation_NoDup.
  - apply Permutation_map, Permutation_sym, sorted_reverse_perm.
  - apply NoDup_map_filter. now rewrite ids_are_keys.
Qed.

Lemma list_orders_distinct_ids_witness :
  exists result,
    list_orders None None None store_AB_cancelled
    = (Return result, store_AB_cancelled)
    /\ NoDup (map Order.id result).
Proof.
  apply (list_orders_distinct_ids None None None [8%N; 7%N] store_AB_cancelled).
  exact run_small.
Defined.

(** ** Reports *)

Lemma satisfies_with_status s created_from created_to (l : list Order.t) :
  filter (status_is s) (filter (satisfies None created_from created_to) l)
  = filter (satisfies (Some s) created_from created_to) l.
Proof.
  rewrite filter_filter. apply filter_ext. intros o.
  unfold satisfies, status_is.
  destruct (OrderStatus_eqb (Order.status o) s); cbn [andb];
    rewrite ?andb_false_r, ?andb_true_r; reflexivity.
Qed.

(** X5: the report and the listing agree: under the same bounds, carrying
    no UTC offset, the count the unfiltered report gives for a status is the
    number of orders the listing returns for that status, and the status
    has no entry in the report exactly when that listing is empty. *)
Theorem orders_report_agrees_with_list s created_from created_to
    (orders : Store) :
  exists report listed,
    orders_report None (naive created_from) (naive created_to) orders
    = (Return report, orders)
    /\ list_orders (Some s) (naive created_from) (naive created_to) orders
       = (Return listed, orders)
    /\ get0 s (OrderReport.statuses report) = List.length listed
    /\ (Dict.get s (OrderReport.statuses report) = None <-> listed = []).
Proof.
  do 2 eexists.
  split; [apply orders_report_eq|].
  split; [apply _filter_orders_eq|].
  cbn [OrderReport.statuses].
  set (listed := sorted_reverse Order.created_at
         (filter (satisfies (Some s) created_from created_to)
                 (Dict.values orders))).
  assert (Hcount :
    occurrences s (map Order.status
      (sorted_reverse Order.created_at
         (filter (satisfies None created_from created_to) (Dict.values orders))))
    = List.length listed).
  { rewrite occurrences_map_status.
    rewrite (count_status_perm s _ _ (sorted_reverse_perm Order.created_at _)).
    unfold count_status. rewrite satisfies_with_status.
    symmetry. apply Permutation_length, sorted_reverse_perm. }
  unfold get0. rewrite Counter_get, Hcount.
  destruct listed as [|o l]; simpl; split; try reflexivity;
    split; congruence.
Qed.

Lemma Counter_single s l n :
  Forall (fun x => x = s) l ->
  fold_left count_one l [(s, n)] = [(s, (n + List.length l)%nat)].
Proof.
  intros Hall. revert n. induction Hall as [|x l -> Hl IH]; intros n; simpl.
  - now rewrite Nat.add_0_r.
  - unfold count_one at 2. simpl. unfold key_eqb, OrderStatus_Key.
    destruct (OrderStatus_eqb_spec s s) as [_|Hne]; [|congruence].
    rewrite IH. do 2 f_equal. lia.
Qed.

(** X6: for bounds that carry no UTC offset, a report with a status filter
    has at most one entry: none when no order matches, and otherwise the
    entry of that status, holding the total. *)
Theorem orders_report_single_status s created_from created_to
    (orders : Store) :
  exists report,
    orders_report (Some s) (naive created_from) (naive created_to) orders
    = (Return report, orders)
    /\ (OrderReport.total report = 0%nat /\ OrderReport.statuses report = []
        \/ (0 < OrderReport.total report)%nat
           /\ OrderReport.statuses report = [(s, OrderReport.total report)]).
Proof.
  eexists.
  split; [apply orders_report_eq|].
  cbn [OrderReport.total OrderReport.statuses].
  set (l := sorted_reverse Order.created_at _).
  assert (Hall : Forall (fun x => x = s) (map Order.status l)).
  { apply Forall_forall. intros x Hx. apply in_map_iff in Hx.
    destruct Hx as (o & <- & Ho).
    apply (Permutation_in _ (sorted_reverse_perm Order.created_at _)) in Ho.
    apply filter_In in Ho. destruct Ho as [_ Hsat].
    unfold satisfies in Hsat. rewrite !andb_true_iff in Hsat.
    destruct Hsat as [[Hs _] _].
    now destruct (OrderStatus_eqb_spec (Order.status o) s). }
  destruct l as [|o l]; [left; split; reflexivity|].
  right. split; [simpl; lia|].
  simpl in Hall. apply Forall_cons_iff in Hall. destruct Hall as [Ho Hl].
  unfold Counter. cbn [map fold_left]. rewrite Ho.
  unfold count_one at 2. simpl.
  rewrite (Counter_single _ _ 1%nat Hl). now rewrite length_map.
Qed.

(** ** Failures *)

Lemma create_order_failure input now uuid (orders : Store) e :
  fst (create_order input now uuid orders) = Raise e ->
  snd (create_order input now uuid orders) = orders.
Proof.
  destruct (OrderCreate.valid input) eqn:Hv.
  - rewrite create_order_valid by assumption. discriminate.
  - now rewrite create_order_invalid.
Qed.

Lemma cancel_order_failure order_id now (orders : Store) e :
  fst (cancel_order order_id now orders) = Raise e ->
  snd (cancel_order order_id now orders) = orders.
Proof.
  destruct (Dict.get order_id orders) as [existing|] eqn:Hg.
  - destruct (OrderStatus_eqb_spec (Order.status existing) CANCELLED) as [Hc|Hc].
    + now rewrite (cancel_order_cancelled _ _ _ _ Hg Hc).
    + rewrite (cancel_order_live _ _ _ _ Hg Hc). discriminate.
  - now rewrite cancel_order_missing.
Qed.

(** X7: a request that is answered with an exception has written nothing:
    whenever [create_order], [update_order], [cancel_order] or one of the
    two routes with a body raises, the store is the one the request found. *)
Theorem failed_request_writes_nothing (orders : Store) e :
  (forall input now uuid,
     fst (create_order input now uuid orders) = Raise e ->
     snd (create_order input now uuid orders) = orders)
  /\ (forall order_id updates now,
        fst (update_order order_id updates now orders) = Raise e ->
        snd (update_order order_id updates now orders) = orders)
  /\ (forall order_id now,
        fst (cancel_order order_id now orders) = Raise e ->
        snd (cancel_order order_id now orders) = orders)
  /\ (forall body now uuid,
        fst (post_orders body now uuid orders) = Raise e ->
        snd (post_orders body now uuid orders) = orders)
  /\ (forall order_id body now,
        fst (put_order order_id body now orders) = Raise e ->
        snd (put_order order_id body now orders) = orders).
Proof.
  split; [|split; [|split; [|split]]].
  - intros. eapply create_order_failure; eassumption.
  - intros. eapply update_order_failure; eassumption.
  - intros. eapply cancel_order_failure; eassumption.
  - intros body now uuid. unfold post_orders, bind.
    destruct (OrderCreate.validate body) as [input|]; simpl; [|reflexivity].
    apply create_order_failure.
  - intros order_id body now. unfold put_order, bind.
    destruct (OrderUpdate.validate body) as [updates|]; simpl; [|reflexivity].
    apply update_order_failure.
Qed.

(** ** The update route *)

Lemma optional_str_rejected r :
  OrderUpdate.optional min_length_1 r = None <-> bad_optional_str r = true.
Proof.
  destruct r as [| | |s]; simpl; try (split; congruence).
  unfold min_length_1. destruct (String.length s); simpl; split; congruence.
Qed.

Lemma optional_int_rejected r :
  OrderUpdate.optional gt_0 r = None <-> bad_optional_int r = true.
Proof.
  destruct r as [| | |q]; simpl; try (split; congruence).
  unfold gt_0. destruct (Z.ltb_spec 0 q), (Z.leb_spec q 0); try lia;
    split; congruence.
Qed.

Lemma optional_any_rejected {A} (r : Raw A) :
  OrderUpdate.optional (fun _ => true) r = None <-> bad_optional r = true.
Proof. destruct r; simpl; split; congruence. Qed.

Lemma update_body_rejected_validate body :
  update_body_rejected body = true <-> OrderUpdate.validate body = None.
Proof.
  unfold update_body_rejected, OrderUpdate.validate.
  rewrite !orb_true_iff.
  rewrite <- !optional_str_rejected, <- optional_int_rejected,
    <- !optional_any_rejected.
  destruct (OrderUpdate.optional min_length_1 (OrderUpdate.raw_customer_name body)),
    (OrderUpdate.optional min_length_1 (OrderUpdate.raw_item body)),
    (OrderUpdate.optional gt_0 (OrderUpdate.raw_quantity body)),
    (OrderUpdate.optional (fun _ => true) (OrderUpdate.raw_notes body)),
    (OrderUpdate.optional (fun _ => true) (OrderUpdate.raw_status body));
    split; try tauto; try discriminate;
    intros H; repeat destruct H as [H|H]; discriminate.
Qed.

Lemma optional_field_ok {A} (p : A -> bool) r f :
  OrderUpdate.optional p r = Some f -> OrderUpdate.field_ok p f = true.
Proof.
  destruct r as [| | |a]; simpl; try (intros [= <-]; reflexivity);
    try discriminate.
  destruct (p a) eqn:Hp; [|discriminate]. now intros [= <-].
Qed.

Lemma validate_update_valid body updates :
  OrderUpdate.validate body = Some updates -> OrderUpdate.valid updates = true.
Proof.
  unfold OrderUpdate.validate, OrderUpdate.valid.
  destruct (OrderUpdate.optional min_length_1 (OrderUpdate.raw_customer_name body))
    as [c|] eqn:Hc; [|discriminate].
  destruct (OrderUpdate.optional min_length_1 (OrderUpdate.raw_item body))
    as [i|] eqn:Hi; [|discriminate].
  destruct (OrderUpdate.optional gt_0 (OrderUpdate.raw_quantity body))
    as [q|] eqn:Hq; [|discriminate].
  destruct (OrderUpdate.optional (fun _ => true) (OrderUpdate.raw_notes body));
    [|discriminate].
  destruct (OrderUpdate.optional (fun _ => true) (OrderUpdate.raw_status body));
    [|discriminate].
  intros [= <-]. simpl.
  now rewrite (optional_field_ok _ _ _ Hc), (optional_field_ok _ _ _ Hi),
    (optional_field_ok _ _ _ Hq).
Qed.

(** X8: what the update route answers, in a store the handlers built.  The
    body is validated first: a refused body is answered with the request
    validation error, whether or not the order exists.  With an accepted
    body, a missing order is answered with the 404 exception; an order that
    exists is updated to the merged record unless the body nulls a required
    field, in which case the model constructor raises.  Only the successful
    update writes the store. *)
Theorem put_order_outcomes order_id body now (orders : Store) :
  store_ok orders ->
  (update_body_rejected body = true
   /\ put_order order_id body now orders = (Raise RequestValidationError, orders))
  \/ (update_body_rejected body = false
      /\ Dict.get order_id orders = None
      /\ put_order order_id body now orders
         = (Raise (HTTPException 404 "Order not found"), orders))
  \/ (exists existing updates,
        OrderUpdate.validate body = Some updates
        /\ Dict.get order_id orders = Some existing
        /\ no_null_required updates = true
        /\ put_order order_id body now orders
           = (Return (merged existing updates now),
              Dict.set order_id (merged existing updates now) orders))
  \/ (exists existing updates,
        OrderUpdate.validate body = Some updates
        /\ Dict.get order_id orders = Some existing
        /\ no_null_required updates = false
        /\ put_order order_id body now orders = (Raise ValidationError, orders)).
Proof.
  intros Hok. unfold put_order, bind.
  destruct (OrderUpdate.validate body) as [updates|] eqn:Hval.
  - assert (Hrej : update_body_rejected body = false).
    { destruct (update_body_rejected body) eqn:Hr; [|reflexivity].
      apply update_body_rejected_validate in Hr. congruence. }
    cbn [parse_body ret].
    destruct (Dict.get order_id orders) as [existing|] eqn:Hg.
    + destruct (no_null_required updates) eqn:Hn.
      * right. right. left. exists existing, updates.
        repeat split; try assumption.
        apply update_order_merged; try assumption.
        eapply validate_update_valid; eassumption.
      * right. right. right. exists existing, updates.
        repeat split; try assumption.
        now apply update_order_nulled with existing.
    + right. left. repeat split; try assumption.
      now apply update_order_missing.
  - left. split; [|reflexivity]. now apply update_body_rejected_validate.
Qed.

Lemma put_order_outcomes_witness :
  (update_body_rejected null_customer_name = true
   /\ put_order 9%N null_customer_name 40 store_AB_cancelled
      = (Raise RequestValidationError, store_AB_cancelled))
  \/ (update_body_rejected null_customer_name = false
      /\ Dict.get 9%N store_AB_cancelled = None
      /\ put_order 9%N null_customer_name 40 store_AB_cancelled
         = (Raise (HTTPException 404 "Order not found"), store_AB_cancelled))
  \/ (exists existing updates,
        OrderUpdate.validate null_customer_name = Some updates
        /\ Dict.get 9%N store_AB_cancelled = Some existing
        /\ no_null_required updates = true
        /\ put_order 9%N null_customer_name 40 store_AB_cancelled
           = (Return (merged existing updates 40),
              Dict.set 9%N (merged existing updates 40) store_AB_cancelled))
  \/ (exists existing updates,
        OrderUpdate.validate null_customer_name = Some updates
        /\ Dict.get 9%N store_AB_cancelled = Some existing
        /\ no_null_required updates = false
        /\ put_order 9%N null_customer_name 40 store_AB_cancelled
           = (Raise ValidationError, store_AB_cancelled)).
Proof.
  apply (put_order_outcomes 9%N null_customer_name 40 store_AB_cancelled).
  exact (run_store_ok _ _ run_small).
Defined.

(** ** Updates, one after the other *)

Lemma later_replaced {A} (f1 f2 : Field A) (old : A) :
  not_null f2 = true ->
  replaced f2 (replaced f1 old) = replaced (later f1 f2) old.
Proof. destruct f2 as [|[a|]]; simpl; congruence. Qed.

Lemma later_not_null {A} (f1 f2 : Field A) :
  not_null f1 = true -> not_null f2 = true -> not_null (later f1 f2) = true.
Proof. destruct f2 as [|[a|]]; simpl; congruence. Qed.

Lemma later_field_ok {A} (p : A -> bool) (f1 f2 : Field A) :
  OrderUpdate.field_ok p f1 = true -> OrderUpdate.field_ok p f2 = true ->
  OrderUpdate.field_ok p (later f1 f2) = true.
Proof. destruct f2 as [|[a|]]; simpl; congruence. Qed.

Lemma merged_merged existing u1 u2 now1 now2 :
  no_null_required u2 = true ->
  merged (merged existing u1 now1) u2 now2
  = merged existing (then_update u1 u2) now2.
Proof.
  unfold no_null_required. rewrite !andb_true_iff.
  intros [[[Nc Ni] Nq] Ns]. unfold merged at 1 3.
  cbn [then_update OrderUpdate.customer_name OrderUpdate.item
       OrderUpdate.quantity OrderUpdate.status OrderUpdate.notes].
  cbn [merged Order.customer_name Order.item Order.quantity Order.status
       Order.notes Order.id Order.created_at].
  rewrite (later_replaced _ _ _ Nc), (later_replaced _ _ _ Ni),
    (later_replaced _ _ _ Nq), (later_replaced _ _ _ Ns).
  f_equal. destruct (OrderUpdate.notes u2); reflexivity.
Qed.

(** X9: two updates of an order, one after the other, amount to the one
    update that sends the fields of both, the later request winning where
    both send a field; [updated_at] is the time of the later one.  (Both
    requests valid as requests and nulling no required field.) *)
Theorem update_order_twice order_id u1 u2 now1 now2 existing (orders : Store) :
  store_ok orders ->
  Dict.get order_id orders = Some existing ->
  OrderUpdate.valid u1 = true -> no_null_required u1 = true ->
  OrderUpdate.valid u2 = true -> no_null_required u2 = true ->
  update_order order_id u2 now2 (snd (update_order order_id u1 now1 orders))
  = update_order order_id (then_update u1 u2) now2 orders.
Proof.
  intros Hok Hg Hv1 Hn1 Hv2 Hn2.
  rewrite (update_order_merged _ _ now1 _ _ Hok Hg Hv1 Hn1). cbn [snd].
  assert (Hok' : store_ok (Dict.set order_id (merged existing u1 now1) orders)).
  { destruct (store_ok_get _ _ _ Hok Hg) as [Hid Hval].
    apply store_ok_set; [assumption | exact Hid | now apply merged_valid]. }
  rewrite (update_order_merged _ u2 now2 _ _ Hok' (get_set_eq _ _ _) Hv2 Hn2).
  rewrite (update_order_merged _ (then_update u1 u2) now2 _ _ Hok Hg).
  - now rewrite set_set, merged_merged.
  - unfold OrderUpdate.valid in *. rewrite !andb_true_iff in *.
    destruct Hv1 as [[? ?] ?], Hv2 as [[? ?] ?].
    repeat split; apply later_field_ok; assumption.
  - unfold no_null_required in *. rewrite !andb_true_iff in *.
    destruct Hn1 as [[[? ?] ?] ?], Hn2 as [[[? ?] ?] ?].
    repeat split; apply later_not_null; assumption.
Qed.

Lemma update_order_twice_witness :
  update_order 8%N (only_notes (Some "gift")) 50
    (snd (update_order 8%N (only_quantity 5) 40 store_AB_cancelled))
  = update_order 8%N (then_update (only_quantity 5) (only_notes (Some "gift")))
      50 store_AB_cancelled.
Proof.
  apply (update_order_twice 8%N (only_quantity 5) (only_notes (Some "gift"))
           40 50 (created order_B 20 8%N) store_AB_cancelled).
  - exact (run_store_ok _ _ run_small).
  - reflexivity.
  - reflexivity.
  - reflexivity.
  - reflexivity.
  - reflexivity.
Defined.

(** ** Creation under a key that is taken *)

(** X10: [create_order] does not look the new identifier up: were [uuid4()]
    to return the key of a stored order, the new order would replace that
    order in place; the keys and the size of the store stay as they were
    and the record stored before is gone. *)
Theorem create_order_overwrites input now uuid old (orders : Store) :
  OrderCreate.valid input = true ->
  Dict.get uuid orders = Some old ->
  exists order,
    create_order input now uuid orders
    = (Return order, Dict.set uuid order orders)
    /\ Order.created_at order = now
    /\ Order.status order = PENDING
    /\ Dict.get uuid (Dict.set uuid order orders) = Some order
    /\ Dict.keys (Dict.set uuid order orders) = Dict.keys orders
    /\ Dict.len (Dict.set uuid order orders) = Dict.len orders.
Proof.
  intros Hv Hg. exists (created input now uuid).
  rewrite create_order_valid by assumption.
  repeat split.
  - apply get_set_eq.
  - apply keys_set_present. congruence.
  - apply len_set_present. congruence.
Qed.

Lemma create_order_overwrites_witness :
  exists order,
    create_order order_B 40 7%N store_AB_cancelled
    = (Return order, Dict.set 7%N order store_AB_cancelled)
    /\ Order.created_at order = 40
    /\ Order.status order = PENDING
    /\ Dict.get 7%N (Dict.set 7%N order store_AB_cancelled) = Some order
    /\ Dict.keys (Dict.set 7%N order store_AB_cancelled)
       = Dict.keys store_AB_cancelled
    /\ Dict.len (Dict.set 7%N order store_AB_cancelled)
       = Dict.len store_AB_cancelled.
Proof.
  apply (create_order_overwrites order_B 40 7%N
           (Order.model_copy_status (created order_A 10 7%N) CANCELLED 30)
           store_AB_cancelled); reflexivity.
Defined.

(** ** What a request writes *)

Lemma validate_fields d o :
  Order.validate d = Some o ->
  Order.id o = Data.id d
  /\ Order.created_at o = Data.created_at d
  /\ Order.updated_at o = Data.updated_at d.
Proof.
  unfold Order.validate.
  destruct (Data.customer_name d), (Data.item d), (Data.quantity d),
    (Data.status d); try discriminate.
  destruct (_ && _); [|discriminate].
  intros [= <-]. simpl. auto.
Qed.

(* the record found under a key after an update or a cancellation is the
   record that was there, or a record with the same [id] and [created_at]
   whose [updated_at] is the time of the request *)
Lemma update_written order_id updates now (orders : Store) k o :
  Dict.get k (snd (update_order order_id updates now orders)) = Some o ->
  Dict.get k orders = Some o
  \/ exists old, Dict.get k orders = Some old
                 /\ Order.id o = Order.id old
                 /\ Order.created_at o = Order.created_at old
                 /\ Order.updated_at o = now.
Proof.
  destruct (Dict.get order_id orders) as [existing|] eqn:Hg.
  - rewrite (update_order_found _ _ _ _ _ Hg).
    destruct (Order.validate _) as [updated|] eqn:Hval; simpl; [|tauto].
    destruct (N.eq_dec order_id k) as [->|Hne].
    + rewrite get_set_eq. intros [= <-]. right. exists existing.
      apply validate_fields in Hval. simpl in Hval. tauto.
    + rewrite get_set_ne by assumption. tauto.
  - rewrite update_order_missing by assumption. simpl. tauto.
Qed.

Lemma cancel_written order_id now (orders : Store) k o :
  Dict.get k (snd (cancel_order order_id now orders)) = Some o ->
  Dict.get k orders = Some o
  \/ exists old, Dict.get k orders = Some old
                 /\ Order.id o = Order.id old
                 /\ Order.created_at o = Order.created_at old
                 /\ Order.updated_at o = now.
Proof.
  destruct (Dict.get order_id orders) as [existing|] eqn:Hg.
  - destruct (OrderStatus_eqb_spec (Order.status existing) CANCELLED) as [Hc|Hc].
    + rewrite (cancel_order_cancelled _ _ _ _ Hg Hc). simpl. tauto.
    + rewrite (cancel_order_live _ _ _ _ Hg Hc). simpl.
      destruct (N.eq_dec order_id k) as [->|Hne].
      * rewrite get_set_eq. intros [= <-]. right. exists existing. simpl. tauto.
      * rewrite get_set_ne by assumption. tauto.
  - rewrite cancel_order_missing by assumption. simpl. tauto.
Qed.

Lemma create_written input now uuid (orders : Store) k o :
  Dict.get k (snd (create_order input now uuid orders)) = Some o ->
  Dict.get k orders = Some o
  \/ Order.created_at o = now /\ Order.updated_at o = now.
Proof.
  destruct (OrderCreate.valid input) eqn:Hv.
  - rewrite create_order_valid by assumption. simpl.
    destruct (N.eq_dec uuid k) as [->|Hne].
    + rewrite get_set_eq. intros [= <-]. right. simpl. tauto.
    + rewrite get_set_ne by assumption. tauto.
  - rewrite create_order_invalid by assumption. simpl. tauto.
Qed.

(** X11: no update and no cancellation, whatever the request holds, changes
    the [id] or the [created_at] of a stored order, or creates or removes a
    key: the record found under a key afterwards has the [id] and the
    [created_at] of the record that was there. *)
Theorem id_and_created_at_are_kept order_id updates now (orders : Store) k o :
  Dict.get k (snd (update_order order_id updates now orders)) = Some o
  \/ Dict.get k (snd (cancel_order order_id now orders)) = Some o ->
  exists old,
    Dict.get k orders = Some old
    /\ Order.id o = Order.id old
    /\ Order.created_at o = Order.created_at old.
Proof.
  intros [Hu|Hc].
  - destruct (update_written _ _ _ _ _ _ Hu) as [Hsame|(old & Hg & Hid & Hcr & _)];
      eauto.
  - destruct (cancel_written _ _ _ _ _ Hc) as [Hsame|(old & Hg & Hid & Hcr & _)];
      eauto.
Qed.

Lemma id_and_created_at_are_kept_witness :
  exists old,
    Dict.get 8%N store_AB_cancelled = Some old
    /\ Order.id (merged (created order_B 20 8%N) (only_quantity 5) 40)
       = Order.id old
    /\ Order.created_at (merged (created order_B 20 8%N) (only_quantity 5) 40)
       = Order.created_at old.
Proof.
  apply (id_and_created_at_are_kept 8%N (only_quantity 5) 40
           store_AB_cancelled 8%N).
  left. reflexivity.
Defined.

(** ** Invariants of a run *)

Lemma min_length_1_nonempty s : min_length_1 s = true -> s <> "".
Proof. intros H ->. discriminate. Qed.

(** X12: in every store a run of the service reaches, the keys are
    distinct, every order is stored under its own [id], every stored order
    has a [customer_name] and an [item] that are not empty and a positive
    [quantity], every key is a value [uuid4()] returned during the run, and
    the store holds no more orders than were created. *)
Theorem run_invariant drawn (orders : Store) :
  run drawn orders ->
  NoDup (Dict.keys orders)
  /\ (forall k o, Dict.get k orders = Some o ->
        Order.id o = k
        /\ Order.customer_name o <> ""
        /\ Order.item o <> ""
        /\ 0 < Order.quantity o)
  /\ (forall k, In k (Dict.keys orders) -> In k drawn)
  /\ (Dict.len orders <= List.length drawn)%nat.
Proof.
  intros Hrun. destruct (run_store_ok _ _ Hrun) as [Hnd Hall].
  split; [assumption|]. split; [|split].
  - intros k o Hg. destruct (store_ok_get k o orders (conj Hnd Hall) Hg) as [Hid Hv].
    unfold Order.valid in Hv. rewrite !andb_true_iff in Hv.
    destruct Hv as [[Hc Hi] Hq].
    repeat split; [assumption | now apply min_length_1_nonempty
                  | now apply min_length_1_nonempty | now apply Z.ltb_lt].
  - now apply run_keys_drawn.
  - unfold Dict.len. rewrite <- (length_map fst). fold (Dict.keys orders).
    apply NoDup_incl_length; [assumption|].
    intros k Hk. eapply run_keys_drawn; eassumption.
Qed.

Lemma run_invariant_witness :
  NoDup (Dict.keys store_AB_cancelled)
  /\ (forall k o, Dict.get k store_AB_cancelled = Some o ->
        Order.id o = k
        /\ Order.customer_name o <> ""
        /\ Order.item o <> ""
        /\ 0 < Order.quantity o)
  /\ (forall k, In k (Dict.keys store_AB_cancelled) -> In k [8%N; 7%N])
  /\ (Dict.len store_AB_cancelled <= List.length [8%N; 7%N])%nat.
Proof. apply (run_invariant [8%N; 7%N] store_AB_cancelled). exact run_small. Defined.

Lemma timed_run_stamps clock (orders : Store) :
  timed_run clock orders ->
  forall k o, Dict.get k orders = Some o ->
    Order.created_at o <= Order.updated_at o /\ Order.updated_at o <= clock.
Proof.
  induction 1 as [t | r clock orders Hrun IH Hclock]; intros k o Hg.
  - discriminate.
  - destruct r as [input now uuid | order_id u now | order_id now];
      cbn [handle request_time] in *.
    + destruct (create_written _ _ _ _ _ _ Hg) as [Hold|[Hc Hu]].
      * destruct (IH _ _ Hold). lia.
      * lia.
    + destruct (update_written _ _ _ _ _ _ Hg) as [Hold|(old & Hold & _ & Hc & Hu)].
      * destruct (IH _ _ Hold). lia.
      * destruct (IH _ _ Hold). lia.
    + destruct (cancel_written _ _ _ _ _ Hg) as [Hold|(old & Hold & _ & Hc & Hu)].
      * destruct (IH _ _ Hold). lia.
      * destruct (IH _ _ Hold). lia.
Qed.

(** X13: in a run in which the clock never goes back, every stored order
    has [created_at <= updated_at], and no timestamp in the store is after
    the time the last request read. *)
Theorem timestamps_ordered clock (orders : Store) k o :
  timed_run clock orders ->
  Dict.get k orders = Some o ->
  Order.created_at o <= Order.updated_at o
  /\ Order.updated_at o <= clock.
Proof. intros Hrun Hg. eapply timed_run_stamps; eassumption. Qed.

Lemma timed_run_small : timed_run 30 store_AB_cancelled.
Proof.
  apply (timed_step (Cancel 7%N 30) 20).
  - apply (timed_step (Create order_B 20 8%N) 10).
    + apply (timed_step (Create order_A 10 7%N) 0); [constructor | simpl; lia].
    + simpl. lia.
  - simpl. lia.
Qed.

Lemma timestamps_ordered_witness :
  Order.created_at (Order.model_copy_status (created order_A 10 7%N) CANCELLED 30)
  <= Order.updated_at (Order.model_copy_status (created order_A 10 7%N) CANCELLED 30)
  /\ Order.updated_at (Order.model_copy_status (created order_A 10 7%N) CANCELLED 30)
     <= 30.
Proof.
  apply (timestamps_ordered 30 store_AB_cancelled 7%N).
  - exact timed_run_small.
  - reflexivity.
Defined.

(** ** A write, then a listing *)

Lemma sorted_reverse_snoc_newest {A} (key : A -> Z) (c : A) l :
  Forall (fun o => key o < key c) l ->
  sorted_reverse key (l ++ [c]) = c :: sorted_reverse key l.
Proof.
  induction 1 as [|x l Hx Hl IH]; simpl; [reflexivity|].
  rewrite IH. simpl.
  destruct (Z.leb_spec (key c) (key x)); [lia | reflexivity].
Qed.

Lemma satisfies_no_filter (l : list Order.t) :
  filter (satisfies None None None) l = l.
Proof. apply filter_true. Qed.

Lemma values_app {K V} (d d' : Dict.t K V) :
  Dict.values (d ++ d')%list = (Dict.values d ++ Dict.values d')%list.
Proof. apply map_app. Qed.

(** X14: after a creation (valid input, [uuid4()] returning a value it has
    not returned before) the unfiltered listing is the listing before with
    the new order added; when the new order is strictly newer than every
    stored order it is the first of the listing and the others follow as
    they were. *)
Theorem create_then_list input now uuid drawn (orders : Store) :
  run drawn orders ->
  ~ In uuid drawn ->
  OrderCreate.valid input = true ->
  exists order before after,
    create_order input now uuid orders
    = (Return order, snd (create_order input now uuid orders))
    /\ list_orders None None None orders = (Return before, orders)
    /\ list_orders None None None (snd (create_order input now uuid orders))
       = (Return after, snd (create_order input now uuid orders))
    /\ Permutation after (order :: before)
    /\ List.length before = Dict.len orders
    /\ ((forall o, In o (Dict.values orders) -> Order.created_at o < now) ->
        after = order :: before).
Proof.
  intros Hrun Hnew Hv. assert (Hfresh := run_fresh _ _ _ Hrun Hnew).
  exists (created input now uuid). do 2 eexists.
  rewrite create_order_valid by assumption. cbn [snd].
  split; [reflexivity|].
  split; [apply (_filter_orders_eq None None None)|].
  split; [apply (_filter_orders_eq None None None)|].
  rewrite set_fresh by assumption.
  rewrite !satisfies_no_filter, values_app. cbn [Dict.values map snd].
  split; [|split].
  - eapply perm_trans; [apply sorted_reverse_perm|].
    eapply perm_trans; [apply Permutation_sym, Permutation_cons_append|].
    apply perm_skip, Permutation_sym, sorted_reverse_perm.
  - rewrite (Permutation_length (sorted_reverse_perm Order.created_at _)).
    apply length_map.
  - intros Hnewer. apply sorted_reverse_snoc_newest.
    apply Forall_forall. exact Hnewer.
Qed.

Lemma create_then_list_witness :
  exists order before after,
    create_order order_B 40 9%N store_AB_cancelled
    = (Return order, snd (create_order order_B 40 9%N store_AB_cancelled))
    /\ list_orders None None None store_AB_cancelled
       = (Return before, store_AB_cancelled)
    /\ list_orders None None None
         (snd (create_order order_B 40 9%N store_AB_cancelled))
       = (Return after, snd (create_order order_B 40 9%N store_AB_cancelled))
    /\ Permutation after (order :: before)
    /\ List.length before = Dict.len store_AB_cancelled
    /\ ((forall o, In o (Dict.values store_AB_cancelled) ->
                   Order.created_at o < 40) ->
        after = order :: before).
Proof.
  apply (create_then_list order_B 40 9%N [8%N; 7%N] store_AB_cancelled run_small).
  - simpl. intros [H|[H|[]]]; discriminate.
  - reflexivity.
Defined.

(** X15: after [cancel_order] on a stored order, the order it returns is in
    the listing of the CANCELLED orders, and no listing for another status
    holds an order with that [id]. *)
Theorem cancel_then_list order_id now existing (orders : Store) :
  store_ok orders ->
  Dict.get order_id orders = Some existing ->
  exists cancelled listed,
    cancel_order order_id now orders
    = (Return cancelled, snd (cancel_order order_id now orders))
    /\ Order.id cancelled = order_id
    /\ list_orders (Some CANCELLED) None None
         (snd (cancel_order order_id now orders))
       = (Return listed, snd (cancel_order order_id now orders))
    /\ In cancelled listed
    /\ (forall s result o,
          s <> CANCELLED ->
          fst (list_orders (Some s) None None
                 (snd (cancel_order order_id now orders))) = Return result ->
          In o result ->
          Order.id o <> order_id).
Proof.
  intros Hok Hg.
  assert (Hok' : store_ok (snd (cancel_order order_id now orders)))
    by exact (store_ok_handle (Cancel order_id now) orders Hok).
  assert (Hafter : exists cancelled,
    cancel_order order_id now orders
    = (Return cancelled, snd (cancel_order order_id now orders))
    /\ Dict.get order_id (snd (cancel_order order_id now orders)) = Some cancelled
    /\ Order.status cancelled = CANCELLED).
  { destruct (OrderStatus_eqb_spec (Order.status existing) CANCELLED) as [Hc|Hc].
    - rewrite (cancel_order_cancelled _ _ _ _ Hg Hc). simpl. eauto.
    - rewrite (cancel_order_live _ _ _ _ Hg Hc). simpl.
      eexists. split; [reflexivity|]. split; [apply get_set_eq | reflexivity]. }
  destruct Hafter as (cancelled & Heq & Hget & Hst).
  set (orders' := snd (cancel_order order_id now orders)) in *.
  exists cancelled. eexists.
  split; [exact Heq|].
  split; [exact (proj1 (store_ok_get _ _ _ Hok' Hget))|].
  split; [apply (_filter_orders_eq (Some CANCELLED) None None)|]. split.
  - apply (Permutation_in _ (Permutation_sym (sorted_reverse_perm _ _))).
    apply filter_In. split.
    + apply get_Some_In in Hget. unfold Dict.values.
      change cancelled with (snd (order_id, cancelled)). now apply in_map.
    + unfold satisfies. rewrite Hst. reflexivity.
  - intros s result o Hs Hres Hin Hid.
    unfold list_orders in Hres.
    rewrite (_filter_orders_eq (Some s) None None) in Hres.
    cbn [fst] in Hres. injection Hres as <-.
    apply (Permutation_in _ (sorted_reverse_perm _ _)) in Hin.
    apply filter_In in Hin. destruct Hin as [Hin Hsat].
    unfold Dict.values in Hin. apply in_map_iff in Hin.
    destruct Hin as ([k o'] & Ho' & Hin). simpl in Ho'. subst o'.
    destruct Hok' as [Hnd Hall].
    assert (Hk := proj1 (proj1 (Forall_forall _ _) Hall _ Hin)). simpl in Hk.
    assert (Hget' : Dict.get k orders' = Some o) by now apply In_get_Some.
    assert (o = cancelled) by congruence. subst o.
    unfold satisfies in Hsat. rewrite Hst, !andb_true_r in Hsat.
    destruct s; simpl in Hsat; congruence.
Qed.

Lemma cancel_then_list_witness :
  exists cancelled listed,
    cancel_order 8%N 50 store_AB_cancelled
    = (Return cancelled, snd (cancel_order 8%N 50 store_AB_cancelled))
    /\ Order.id cancelled = 8%N
    /\ list_orders (Some CANCELLED) None None
         (snd (cancel_order 8%N 50 store_AB_cancelled))
       = (Return listed, snd (cancel_order 8%N 50 store_AB_cancelled))
    /\ In cancelled listed
    /\ (forall s result o,
          s <> CANCELLED ->
          fst (list_orders (Some s) None None
                 (snd (cancel_order 8%N 50 store_AB_cancelled))) = Return result ->
          In o result ->
          Order.id o <> 8%N).
Proof.
  apply (cancel_then_list 8%N 50 (created order_B 20 8%N) store_AB_cancelled).
  - exact (run_store_ok _ _ run_small).
  - reflexivity.
Defined.

(** ** Bounds that carry a UTC offset *)

Lemma keep_if_status_In status (l : list Order.t) o :
  In o l -> satisfies status None None o = true ->
  In o (keep_if status status_is l).
Proof.
  intros Hin Hsat. rewrite keep_if_as_filter. apply filter_In.
  split; [assumption|]. unfold satisfies in Hsat.
  now rewrite !andb_true_r in Hsat.
Qed.

Lemma orders_report_raises status created_from created_to (orders : Store) e :
  _filter_orders status created_from created_to orders = (Raise e, orders) ->
  orders_report status created_from created_to orders = (Raise e, orders).
Proof. intros H. unfold orders_report, bind. now rewrite H. Qed.

(** X18: when an order reaches the comparison with a bound that carries a
    UTC offset, the listing and the report raise TypeError and leave the
    store as it was: for the lower bound, as soon as a stored order passes
    the status filter; for the upper bound (the lower one carrying no
    offset), as soon as a stored order passes the status filter and the
    lower bound. *)
Theorem offset_bound_raises status created_from created_to t off
    (orders : Store) o :
  In o (Dict.values orders) ->
  (satisfies status None None o = true ->
     list_orders status (Some (Aware t off)) created_to orders
     = (Raise TypeError, orders)
     /\ orders_report status (Some (Aware t off)) created_to orders
        = (Raise TypeError, orders))
  /\ (satisfies status created_from None o = true ->
        list_orders status (naive created_from) (Some (Aware t off)) orders
        = (Raise TypeError, orders)
        /\ orders_report status (naive created_from) (Some (Aware t off)) orders
           = (Raise TypeError, orders)).
Proof.
  intros Hin. split; intros Hsat.
  - assert (Hraise : _filter_orders status (Some (Aware t off)) created_to orders
                     = (Raise TypeError, orders)).
    { rewrite _filter_orders_aware_from.
      pose proof (keep_if_status_In status _ o Hin Hsat) as Hkept.
      destruct (keep_if status status_is (Dict.values orders));
        [destruct Hkept | reflexivity]. }
    split; [exact Hraise | now apply orders_report_raises].
  - assert (Hraise : _filter_orders status (naive created_from)
                       (Some (Aware t off)) orders
                     = (Raise TypeError, orders)).
    { rewrite _filter_orders_aware_to.
      assert (Hkept : In o (filter (satisfies status created_from None)
                                   (Dict.values orders)))
        by (apply filter_In; now split).
      destruct (filter (satisfies status created_from None) (Dict.values orders));
        [destruct Hkept | reflexivity]. }
    split; [exact Hraise | now apply orders_report_raises].
Qed.

Lemma offset_bound_raises_witness :
  (satisfies (Some PENDING) None None (created order_B 20 8%N) = true ->
     list_orders (Some PENDING) (Some (Aware 0 3600)) None store_AB_cancelled
     = (Raise TypeError, store_AB_cancelled)
     /\ orders_report (Some PENDING) (Some (Aware 0 3600)) None store_AB_cancelled
        = (Raise TypeError, store_AB_cancelled))
  /\ (satisfies (Some PENDING) (Some 15) None (created order_B 20 8%N) = true ->
        list_orders (Some PENDING) (naive (Some 15)) (Some (Aware 0 3600))
          store_AB_cancelled
        = (Raise TypeError, store_AB_cancelled)
        /\ orders_report (Some PENDING) (naive (Some 15)) (Some (Aware 0 3600))
             store_AB_cancelled
           = (Raise TypeError, store_AB_cancelled)).
Proof.
  apply (offset_bound_raises (Some PENDING) (Some 15) None 0 3600
           store_AB_cancelled (created order_B 20 8%N)).
  simpl. right. left. reflexivity.
Defined.

Lemma keep_if_raising_nil {X} (x : option X) (p : X -> Order.t -> M bool)
    (orders : Store) :
  keep_if_raising x p [] orders = (Return [], orders).
Proof. destruct x; reflexivity. Qed.

(** X19: a bound is compared only with the orders that reach it: when no
    stored order passes the status filter (an empty store, or a status no
    order has), the listing is empty and the report counts nothing,
    whatever the bounds are, with or without a UTC offset. *)
Theorem unreached_bounds_do_not_raise status created_from created_to
    (orders : Store) :
  (forall o, In o (Dict.values orders) -> satisfies status None None o = false) ->
  list_orders status created_from created_to orders = (Return [], orders)
  /\ orders_report status created_from created_to orders
     = (Return {| OrderReport.total := 0; OrderReport.statuses := [] |}, orders).
Proof.
  intros Hnone.
  assert (Hkept : keep_if status status_is (Dict.values orders) = []).
  { rewrite keep_if_as_filter. apply filter_none. intros o Ho.
    specialize (Hnone o Ho). unfold satisfies in Hnone.
    now rewrite !andb_true_r in Hnone. }
  assert (Hlist : _filter_orders status created_from created_to orders
                  = (Return [], orders)).
  { unfold _filter_orders, bind, get_orders. rewrite Hkept.
    now rewrite !keep_if_raising_nil. }
  split; [exact Hlist|].
  unfold orders_report, bind. now rewrite Hlist.
Qed.

Lemma unreached_bounds_do_not_raise_witness :
  list_orders (Some FULFILLED) (Some (Aware 0 3600)) (Some (Aware 5 0))
    store_AB_cancelled
  = (Return [], store_AB_cancelled)
  /\ orders_report (Some FULFILLED) (Some (Aware 0 3600)) (Some (Aware 5 0))
       store_AB_cancelled
     = (Return {| OrderReport.total := 0; OrderReport.statuses := [] |},
        store_AB_cancelled).
Proof.
  apply (unreached_bounds_do_not_raise (Some FULFILLED) (Some (Aware 0 3600))
           (Some (Aware 5 0)) store_AB_cancelled).
  simpl. intros o [<-|[<-|[]]]; reflexivity.
Defined.
